(** * Account Manager (app.js): storage adapter, validation rules and the
    login / register / account-save handlers.

    The development follows the layout of [app.js]:
    - the string primitives the handlers call ([trim], [toLowerCase],
      [includes], [length]);
    - the values [JSON.parse] produces and the few operations the handlers
      apply to them (property read, [===], object spread, array update);
    - [localStorage] as a finite map from keys to strings;
    - the storage utilities, helpers and handlers, one definition per
      function of the source;
    - a reference JSON reader and writer, used to run the handlers on
      concrete store contents;
    - the properties of the handlers.

    Strings are sequences of code units; the model covers the code units
    U+0000..U+00FF, one [ascii] each. *)

From Stdlib Require Import String Ascii List Bool Arith ZArith Lia DecimalString.
From stdpp Require Import base option list gmap strings.

Local Open Scope string_scope.
Local Open Scope list_scope.

(** ** String primitives *)

Module JsString.

(** WhiteSpace and LineTerminator code units below U+0100: TAB, LF, VT, FF,
    CR, SPACE and NO-BREAK SPACE. *)
Definition isWhiteSpace (c : ascii) : bool :=
  let n := nat_of_ascii c in
  ((9 <=? n)%nat && (n <=? 13)%nat) || (n =? 32)%nat || (n =? 160)%nat.

Fixpoint trimStart (s : string) : string :=
  match s with
  | EmptyString => EmptyString
  | String c s' => if isWhiteSpace c then trimStart s' else s
  end.

Fixpoint trimEnd (s : string) : string :=
  match s with
  | EmptyString => EmptyString
  | String c s' =>
      match trimEnd s' with
      | EmptyString => if isWhiteSpace c then EmptyString else String c EmptyString
      | t => String c t
      end
  end.

(** [String.prototype.trim] *)
Definition trim (s : string) : string := trimEnd (trimStart s).

(** Lower-case mapping of one code unit below U+0100: A-Z, and the Latin-1
    capitals U+00C0..U+00DE except the multiplication sign U+00D7. *)
Definition lowerChar (c : ascii) : ascii :=
  let n := nat_of_ascii c in
  if ((65 <=? n)%nat && (n <=? 90)%nat) || ((192 <=? n)%nat && (n <=? 214)%nat)
     || ((216 <=? n)%nat && (n <=? 222)%nat)
  then ascii_of_nat (n + 32) else c.

(** [String.prototype.toLowerCase] *)
Fixpoint toLowerCase (s : string) : string :=
  match s with
  | EmptyString => EmptyString
  | String c s' => String (lowerChar c) (toLowerCase s')
  end.

(** [String.prototype.includes]: [t] occurs in [s] as a substring. *)
Fixpoint includes (s t : string) : bool :=
  match s with
  | EmptyString => String.prefix t EmptyString
  | String _ s' => String.prefix t s || includes s' t
  end.

(** A string all of whose code units are white space. *)
Fixpoint allWhiteSpace (s : string) : bool :=
  match s with
  | EmptyString => true
  | String c s' => isWhiteSpace c && allWhiteSpace s'
  end.

End JsString.

Import JsString.

(** ** Completions: a call returns normally or throws *)

Inductive exn : Type := TypeError | SyntaxError.

Inductive completion (A : Type) : Type :=
| Normal (a : A)
| Throw (e : exn).

Arguments Normal {A} a.
Arguments Throw {A} e.

Definition bind {A B : Type} (c : completion A) (k : A -> completion B) : completion B :=
  match c with
  | Normal a => k a
  | Throw e => Throw e
  end.

Notation "'do' x <- c ;; k" := (bind c (fun x => k))
  (at level 10, x name, c at level 99, k at level 200).

(** [try { body } catch { handler }] *)
Definition try_catch {A : Type} (body : completion A) (handler : completion A) : completion A :=
  match body with
  | Normal a => Normal a
  | Throw _ => handler
  end.

(** ** The values [JSON.parse] produces *)

(** A number is kept as its canonical rendering [String(n)]: on the numbers
    [JSON.parse] produces, two numbers are [===] exactly when their
    renderings agree ([-0] and [0] both render as ["0"], and no parsed number
    is NaN). An object is the list of its own properties in property order;
    the keys of an object are pairwise distinct. *)
#[local] Unset Elimination Schemes.
Inductive JSON : Type :=
| JNull
| JBool (b : bool)
| JNum (repr : string)
| JStr (s : string)
| JArr (elems : list JSON)
| JObj (props : list (string * JSON)).
#[local] Set Elimination Schemes.

(** A value or [undefined]. *)
Abbreviation jsval := (option JSON).
Abbreviation undefined := (@None JSON).

Module Js.

Fixpoint assoc (k : string) (ps : list (string * JSON)) : jsval :=
  match ps with
  | [] => undefined
  | (k', v) :: ps' => if String.eqb k' k then Some v else assoc k ps'
  end.

(** [v.k] for a property name that no built-in prototype defines, as are
    the names the handlers use ([name], [email], [password]): only an object
    can own such a property; reading a property of [null] throws. *)
Definition get (v : JSON) (k : string) : completion jsval :=
  match v with
  | JNull => Throw TypeError
  | JObj ps => Normal (assoc k ps)
  | _ => Normal undefined
  end.

(** [a === b]. Arrays and objects are compared by identity; the two sides of
    every comparison in the handlers come from different [JSON.parse] calls or
    from a string, so two arrays or two objects are never the same one. *)
Definition strict_eq (a b : jsval) : bool :=
  match a, b with
  | None, None => true
  | Some JNull, Some JNull => true
  | Some (JBool x), Some (JBool y) => Bool.eqb x y
  | Some (JNum x), Some (JNum y) => String.eqb x y
  | Some (JStr x), Some (JStr y) => String.eqb x y
  | _, _ => false
  end.

(** ToBoolean *)
Definition truthy (v : JSON) : bool :=
  match v with
  | JNull => false
  | JBool b => b
  | JNum r => negb (String.eqb r "0")
  | JStr s => negb (String.eqb s EmptyString)
  | JArr _ | JObj _ => true
  end.

(** [Array.prototype.some] with a callback that may throw. *)
Fixpoint some (f : JSON -> completion bool) (l : list JSON) : completion bool :=
  match l with
  | [] => Normal false
  | u :: l' => do b <- f u ;; if b then Normal true else some f l'
  end.

(** [Array.prototype.find]: the first element the callback accepts, or
    [undefined]. *)
Fixpoint find (f : JSON -> completion bool) (l : list JSON) : completion jsval :=
  match l with
  | [] => Normal undefined
  | u :: l' => do b <- f u ;; if b then Normal (Some u) else find f l'
  end.

(** [Array.prototype.findIndex]: the index of the first element the callback
    accepts, or [-1]. *)
Fixpoint findIndexFrom (i : Z) (f : JSON -> completion bool) (l : list JSON) : completion Z :=
  match l with
  | [] => Normal (-1)%Z
  | u :: l' => do b <- f u ;; if b then Normal i else findIndexFrom (i + 1)%Z f l'
  end.

Definition findIndex := findIndexFrom 0%Z.

Definition indexKey (i : nat) : string := NilEmpty.string_of_uint (Nat.to_uint i).

Fixpoint indexedFrom {A : Type} (i : nat) (f : A -> JSON) (l : list A) : list (string * JSON) :=
  match l with
  | [] => []
  | x :: l' => (indexKey i, f x) :: indexedFrom (S i) f l'
  end.

(** The own enumerable properties that [{...v}] copies. *)
Definition ownProps (v : JSON) : list (string * JSON) :=
  match v with
  | JObj ps => ps
  | JArr l => indexedFrom 0 (fun x => x) l
  | JStr s => indexedFrom 0 (fun c => JStr (String c EmptyString)) (list_ascii_of_string s)
  | _ => []
  end.

(** Define or overwrite the property [k] (not an array index): an existing
    property keeps its place, a new one goes last. *)
Fixpoint setProp (ps : list (string * JSON)) (k : string) (v : JSON) : list (string * JSON) :=
  match ps with
  | [] => [(k, v)]
  | (k', v') :: ps' =>
      if String.eqb k' k then (k, v) :: ps' else (k', v') :: setProp ps' k v
  end.

End Js.

(** ** Browser state *)

(** [localStorage] maps keys to strings; the App component keeps the current
    session in its state, and [window.location.hash] selects the page. *)
Record state : Type := {
  localStorage : gmap string string;
  appSession : JSON;
  hash : string
}.

Definition getItem (k : string) (st : state) : option string := localStorage st !! k.

Definition setItem (k v : string) (st : state) : state :=
  {| localStorage := <[k := v]> (localStorage st);
     appSession := appSession st; hash := hash st |}.

Definition removeItem (k : string) (st : state) : state :=
  {| localStorage := delete k (localStorage st);
     appSession := appSession st; hash := hash st |}.

Module STORAGE_KEYS.
Definition users : string := "app.users".
Definition session : string := "app.session".
End STORAGE_KEYS.

Module ROUTES.
Definition login : string := "#/login".
Definition register : string := "#/register".
Definition account : string := "#/account".
End ROUTES.

(** What a handler leaves on the page. *)
Inductive outcome : Type :=
| ShowError (msg : string)
| ShowSuccess (msg : string)
| LoggedIn (user : JSON)
| Uncaught (e : exn).

(** ** Values that survive a write and a read *)

Definition indexLike (k : string) : bool :=
  match k with
  | EmptyString => false
  | String c _ => (48 <=? nat_of_ascii c)%nat && (nat_of_ascii c <=? 57)%nat
  end.

Fixpoint distinct (ks : list string) : bool :=
  match ks with
  | [] => true
  | k :: ks' => negb (existsb (String.eqb k) ks') && distinct ks'
  end.

(** [plain v]: [v] holds no number, and the keys of each of its objects are
    pairwise distinct and do not start with a digit (so none is an array
    index, and property order is insertion order). For such a value
    [JSON.parse(JSON.stringify(v))] is a copy of [v]. *)
Fixpoint plain (v : JSON) : bool :=
  match v with
  | JNull | JBool _ | JStr _ => true
  | JNum _ => false
  | JArr l => forallb plain l
  | JObj ps =>
      distinct (map fst ps)
      && forallb (fun kv => negb (indexLike (fst kv)) && plain (snd kv)) ps
  end.

(** ** A reference JSON writer and reader

    [RefJSON.stringify] writes a value the way [JSON.stringify] does.
    [RefJSON.parse] reads the JSON texts in which every number is an integer
    of at most 15 digits or such an integer with an exponent of 309 or more
    (which [JSON.parse] reads as [Infinity]), every string stays below U+0100
    and no key starts with a digit; it refuses every other text. *)

Module RefJSON.

#[local] Open Scope string_scope.

Definition dquote : ascii := ascii_of_nat 34.
Definition backslash : ascii := ascii_of_nat 92.

Definition hexDigit (n : nat) : ascii :=
  if (n <? 10)%nat then ascii_of_nat (48 + n) else ascii_of_nat (87 + n).

(** The text of one code unit inside a string literal. *)
Definition quoteChar (c : ascii) : string :=
  let n := nat_of_ascii c in
  let esc (e : ascii) := String backslash (String e EmptyString) in
  if (n =? 34)%nat then esc dquote
  else if (n =? 92)%nat then esc backslash
  else if (n =? 8)%nat then esc "b"%char
  else if (n =? 12)%nat then esc "f"%char
  else if (n =? 10)%nat then esc "n"%char
  else if (n =? 13)%nat then esc "r"%char
  else if (n =? 9)%nat then esc "t"%char
  else if (n <? 32)%nat then
    String backslash
      (String "u" (String "0" (String "0"
         (String (hexDigit (n / 16)) (String (hexDigit (n mod 16)) EmptyString)))))
  else String c EmptyString.

Fixpoint quoteChars (s : string) : string :=
  match s with
  | EmptyString => EmptyString
  | String c s' => quoteChar c ++ quoteChars s'
  end.

Definition quote (s : string) : string :=
  String dquote (quoteChars s ++ String dquote EmptyString).

(** The items after the first of an array or object, each after a comma, and
    the closing bracket. *)
Fixpoint joinTail {A : Type} (f : A -> string) (close : string) (l : list A) : string :=
  match l with
  | [] => close
  | y :: l' => "," ++ f y ++ joinTail f close l'
  end.

Fixpoint stringify (v : JSON) : string :=
  match v with
  | JNull => "null"
  | JBool true => "true"
  | JBool false => "false"
  | JNum r =>
      if String.eqb r "Infinity" || String.eqb r "-Infinity" then "null" else r
  | JStr s => quote s
  | JArr l =>
      match l with
      | [] => "[]"
      | x :: l' => "[" ++ stringify x ++ joinTail stringify "]" l'
      end
  | JObj ps =>
      match ps with
      | [] => "{}"
      | kx :: ps' =>
          "{" ++ quote (fst kx) ++ ":" ++ stringify (snd kx)
          ++ joinTail (fun ky => quote (fst ky) ++ ":" ++ stringify (snd ky)) "}" ps'
      end
  end.

Definition isWs (c : ascii) : bool :=
  let n := nat_of_ascii c in
  (n =? 32)%nat || (n =? 9)%nat || (n =? 10)%nat || (n =? 13)%nat.

Fixpoint skipWs (s : string) : string :=
  match s with
  | EmptyString => EmptyString
  | String c s' => if isWs c then skipWs s' else s
  end.

Fixpoint stripPrefix (p s : string) : option string :=
  match p with
  | EmptyString => Some s
  | String a p' =>
      match s with
      | EmptyString => None
      | String b s' => if Ascii.eqb a b then stripPrefix p' s' else None
      end
  end.

Definition hexValue (c : ascii) : option nat :=
  let n := nat_of_ascii c in
  if (48 <=? n)%nat && (n <=? 57)%nat then Some (n - 48)
  else if (97 <=? n)%nat && (n <=? 102)%nat then Some (n - 87)
  else if (65 <=? n)%nat && (n <=? 70)%nat then Some (n - 55)
  else None.

(** The code unit an escape letter stands for. *)
Definition unescape (e : ascii) : option ascii :=
  let n := nat_of_ascii e in
  if (n =? 34)%nat then Some dquote
  else if (n =? 92)%nat then Some backslash
  else if (n =? 47)%nat then Some "/"%char
  else if (n =? 98)%nat then Some (ascii_of_nat 8)
  else if (n =? 102)%nat then Some (ascii_of_nat 12)
  else if (n =? 110)%nat then Some (ascii_of_nat 10)
  else if (n =? 114)%nat then Some (ascii_of_nat 13)
  else if (n =? 116)%nat then Some (ascii_of_nat 9)
  else None.

(** The rest of a string literal, after its opening quote: the string it
    denotes and the text after its closing quote. *)
Fixpoint parseChars (s : string) : option (string * string) :=
  match s with
  | EmptyString => None
  | String c s1 =>
      if Ascii.eqb c dquote then Some (EmptyString, s1)
      else if Ascii.eqb c backslash then
        match s1 with
        | EmptyString => None
        | String e s2 =>
            if Ascii.eqb e "u" then
              match s2 with
              | String h1 (String h2 (String h3 (String h4 s3))) =>
                  match hexValue h1, hexValue h2, hexValue h3, hexValue h4 with
                  | Some 0, Some 0, Some a, Some b =>
                      match parseChars s3 with
                      | Some (t, r) => Some (String (ascii_of_nat (16 * a + b)) t, r)
                      | None => None
                      end
                  | _, _, _, _ => None
                  end
              | _ => None
              end
            else
              match unescape e with
              | Some c' =>
                  match parseChars s2 with
                  | Some (t, r) => Some (String c' t, r)
                  | None => None
                  end
              | None => None
              end
        end
      else if (nat_of_ascii c <? 32)%nat then None
      else
        match parseChars s1 with
        | Some (t, r) => Some (String c t, r)
        | None => None
        end
  end.

Definition isDigit (c : ascii) : bool :=
  (48 <=? nat_of_ascii c)%nat && (nat_of_ascii c <=? 57)%nat.

Fixpoint takeDigits (s : string) : string * string :=
  match s with
  | EmptyString => (EmptyString, EmptyString)
  | String c s' =>
      if isDigit c then let '(d, r) := takeDigits s' in (String c d, r)
      else (EmptyString, s)
  end.

(** The value of a string of digits. *)
Fixpoint digitsValue (acc : nat) (s : string) : nat :=
  match s with
  | EmptyString => acc
  | String c s' => digitsValue (10 * acc + (nat_of_ascii c - 48)) s'
  end.

(** The exponent of a number, after its [e]: an optional plus sign and at
    most six digits. *)
Definition parseExponent (r : string) : option (nat * string) :=
  let r1 :=
    match r with
    | String "+" r' => r'
    | _ => r
    end in
  let '(k, r2) := takeDigits r1 in
  match k with
  | EmptyString => None
  | String _ _ => if (6 <? String.length k)%nat then None else Some (digitsValue 0 k, r2)
  end.

(** An integer literal of at most 15 digits, as its rendering; or such an
    integer, not zero, times ten to a power of 309 or more: that is beyond
    the largest double (1.797...e308), and [JSON.parse] gives [Infinity]. *)
Definition parseNumber (s : string) : option (JSON * string) :=
  let '(neg, s1) :=
    match s with
    | String "-" s' => (true, s')
    | _ => (false, s)
    end in
  let '(d, r) := takeDigits s1 in
  let integer :=
    if String.eqb d "0" then Some (JNum "0", r)
    else Some (JNum (if neg then String "-" d else d), r) in
  match d with
  | EmptyString => None
  | String d0 d' =>
      if Ascii.eqb d0 "0" && negb (String.eqb d' EmptyString) then None
      else if (15 <? String.length d)%nat then None
      else
        match r with
        | EmptyString => integer
        | String c r' =>
            if Ascii.eqb c "." then None
            else if Ascii.eqb c "e" || Ascii.eqb c "E" then
              match parseExponent r' with
              | Some (k, r2) =>
                  if String.eqb d "0" then None
                  else if (309 <=? k)%nat
                  then Some (JNum (if neg then "-Infinity" else "Infinity"), r2)
                  else None
              | None => None
              end
            else integer
        end
  end.

(** [JSON.parse] keeps, of several members with one key, the place of the
    first and the value of the last. *)
Definition members (ps : list (string * JSON)) : list (string * JSON) :=
  fold_left (fun acc kv => Js.setProp acc (fst kv) (snd kv)) ps [].

Definition expect (c : ascii) (s : string) : option string :=
  match skipWs s with
  | String c' r => if Ascii.eqb c c' then Some r else None
  | EmptyString => None
  end.

Definition parseKey (s : string) : option (string * string) :=
  match expect dquote s with
  | Some r =>
      match parseChars r with
      | Some (k, r1) =>
          if indexLike k then None
          else match expect ":" r1 with
               | Some r2 => Some (k, r2)
               | None => None
               end
      | None => None
      end
  | None => None
  end.

Fixpoint parseValue (fuel : nat) (s : string) {struct fuel} : option (JSON * string) :=
  match fuel with
  | 0 => None
  | S fuel' =>
      match skipWs s with
      | EmptyString => None
      | String c r =>
          if Ascii.eqb c "[" then
            match expect "]" r with
            | Some r' => Some (JArr [], r')
            | None =>
                match parseValue fuel' r with
                | Some (x, r1) =>
                    match parseElements fuel' r1 with
                    | Some (l, r2) => Some (JArr (x :: l), r2)
                    | None => None
                    end
                | None => None
                end
            end
          else if Ascii.eqb c "{" then
            match expect "}" r with
            | Some r' => Some (JObj [], r')
            | None =>
                match parseKey r with
                | Some (k, r0) =>
                    match parseValue fuel' r0 with
                    | Some (x, r1) =>
                        match parseMembers fuel' r1 with
                        | Some (ps, r2) => Some (JObj (members ((k, x) :: ps)), r2)
                        | None => None
                        end
                    | None => None
                    end
                | None => None
                end
            end
          else if Ascii.eqb c dquote then
            match parseChars r with
            | Some (t, r') => Some (JStr t, r')
            | None => None
            end
          else if Ascii.eqb c "n" then
            match stripPrefix "ull" r with
            | Some r' => Some (JNull, r')
            | None => None
            end
          else if Ascii.eqb c "t" then
            match stripPrefix "rue" r with
            | Some r' => Some (JBool true, r')
            | None => None
            end
          else if Ascii.eqb c "f" then
            match stripPrefix "alse" r with
            | Some r' => Some (JBool false, r')
            | None => None
            end
          else parseNumber (String c r)
      end
  end
with parseElements (fuel : nat) (s : string) {struct fuel} : option (list JSON * string) :=
  match fuel with
  | 0 => None
  | S fuel' =>
      match skipWs s with
      | EmptyString => None
      | String c r =>
          if Ascii.eqb c "]" then Some ([], r)
          else if Ascii.eqb c "," then
            match parseValue fuel' r with
            | Some (x, r1) =>
                match parseElements fuel' r1 with
                | Some (l, r2) => Some (x :: l, r2)
                | None => None
                end
            | None => None
            end
          else None
      end
  end
with parseMembers (fuel : nat) (s : string) {struct fuel}
  : option (list (string * JSON) * string) :=
  match fuel with
  | 0 => None
  | S fuel' =>
      match skipWs s with
      | EmptyString => None
      | String c r =>
          if Ascii.eqb c "}" then Some ([], r)
          else if Ascii.eqb c "," then
            match parseKey r with
            | Some (k, r0) =>
                match parseValue fuel' r0 with
                | Some (x, r1) =>
                    match parseMembers fuel' r1 with
                    | Some (ps, r2) => Some ((k, x) :: ps, r2)
                    | None => None
                    end
                | None => None
                end
            | None => None
            end
          else None
      end
  end.

(** Every call above reads at least one character before it calls again, so
    the length of the text bounds the depth of the calls and is given as
    fuel. *)
Definition parse (s : string) : completion JSON :=
  match parseValue (S (String.length s)) s with
  | Some (v, r) =>
      match skipWs r with
      | EmptyString => Normal v
      | String _ _ => Throw SyntaxError
      end
  | None => Throw SyntaxError
  end.

(** A text written with an apostrophe wherever JSON has a double quote. *)
Fixpoint jsonText (s : string) : string :=
  match s with
  | EmptyString => EmptyString
  | String c s' => String (if Ascii.eqb c "'" then dquote else c) (jsonText s')
  end.

(** A text that begins as a value other than a number does. *)
Definition opens (s : string) : Prop :=
  exists (c : ascii) (t : string), s = String c t /\
    (c = "n" \/ c = "t" \/ c = "f" \/ c = dquote \/ c = "[" \/ c = "{")%char.

(** [reads v]: with fuel for the length of its text, the reader gets [v]
    back from what the writer wrote, and stops right after it. *)
Definition reads (v : JSON) : Prop :=
  plain v = true ->
  forall (fuel : nat) (rest : string),
    String.length (stringify v) <= fuel ->
    parseValue fuel (stringify v ++ rest) = Some (v, rest).

End RefJSON.

(** ** Records as the handlers store them *)

(** [normalized u]: [u] is [{name, email, password}] with a trimmed name of
    at least 2 characters, a trimmed password of at least 4 and a trimmed
    lower-case email. *)
Definition normalized (u : JSON) : bool :=
  match u with
  | JObj [(k1, JStr n); (k2, JStr e); (k3, JStr p)] =>
      String.eqb k1 "name" && String.eqb k2 "email" && String.eqb k3 "password"
      && String.eqb (trim n) n && (2 <=? String.length n)%nat
      && String.eqb (trim p) p && (4 <=? String.length p)%nat
      && String.eqb (toLowerCase (trim e)) e
  | _ => false
  end.

Section App.

(** [JSON.parse] (which throws a SyntaxError on malformed text) and
    [JSON.stringify], provided by the browser. *)
Variable JSON_parse : string -> completion JSON.
Variable JSON_stringify : JSON -> string.

(** *** Storage utilities *)

Definition readUsers (st : state) : completion (list JSON) :=
  try_catch
    (match getItem STORAGE_KEYS.users st with
     | None => Normal []
     | Some raw =>
         if String.eqb raw EmptyString then Normal []
         else do data <- JSON_parse raw ;;
              match data with
              | JArr l => Normal l
              | _ => Normal []
              end
     end)
    (Normal []).

Definition writeUsers (users : list JSON) (st : state) : state :=
  setItem STORAGE_KEYS.users (JSON_stringify (JArr users)) st.

Definition readSession (st : state) : completion JSON :=
  try_catch
    (match getItem STORAGE_KEYS.session st with
     | None => Normal JNull
     | Some raw => if String.eqb raw EmptyString then Normal JNull else JSON_parse raw
     end)
    (Normal JNull).

Definition writeSession (session : JSON) (st : state) : state :=
  if negb (Js.truthy session) then removeItem STORAGE_KEYS.session st
  else setItem STORAGE_KEYS.session (JSON_stringify session) st.

(** *** Router *)

Definition navigate (to : string) (st : state) : state :=
  {| localStorage := localStorage st; appSession := appSession st; hash := to |}.

(** *** Helpers *)

Definition validateEmail (email : JSON) : bool :=
  match email with
  | JStr s => includes s "@" && includes s "."
  | _ => false
  end.

(** The form fields are strings (the value of an input element). *)
Definition safeTrim (value : string) : string :=
  trim (if String.eqb value EmptyString then EmptyString else value).

(** *** App *)

(** The object literal [{ email: user.email }]; when [user.email] is
    [undefined] the object reads and serializes like [{}]. *)
Definition sessionOf (email : jsval) : JSON :=
  match email with
  | Some e => JObj [("email", e)]
  | None => JObj []
  end.

Definition setSession (session : JSON) (st : state) : state :=
  {| localStorage := localStorage st; appSession := session; hash := hash st |}.

Definition App_handleLogout (st : state) : state :=
  navigate ROUTES.login (setSession JNull (writeSession JNull st)).

Definition App_handleLogin (user : JSON) (st : state) : completion state :=
  do e <- Js.get user "email" ;; Normal (setSession (sessionOf e) st).

(** *** LoginPage *)

(** The part of [handleSubmit] that runs at once: it shows an error, or arms
    the timer with the normalized email and password. *)
Definition LoginPage_handleSubmit (email password : string) : string + string * string :=
  let eMail := toLowerCase (safeTrim email) in
  let pass := safeTrim password in
  if negb (validateEmail (JStr eMail)) then inl "Please enter a valid email."
  else if (String.length pass <? 4)%nat then inl "Password must be at least 4 characters."
  else inr (eMail, pass).

(** [u => u.email === eMail && u.password === pass] *)
Definition credentialsMatch (eMail pass : string) (u : JSON) : completion bool :=
  do e <- Js.get u "email" ;;
  if Js.strict_eq e (Some (JStr eMail))
  then do p <- Js.get u "password" ;; Normal (Js.strict_eq p (Some (JStr pass)))
  else Normal false.

(** The timer callback of [handleSubmit]. *)
Definition LoginPage_onTimeout (eMail pass : string) (st : state) : outcome * state :=
  match do users <- readUsers st ;; Js.find (credentialsMatch eMail pass) users with
  | Throw e => (Uncaught e, st)
  | Normal None => (ShowError "Invalid email or password.", st)
  | Normal (Some user) =>
      match Js.get user "email" with
      | Throw e => (Uncaught e, st)
      | Normal e =>
          let st1 := writeSession (sessionOf e) st in
          match App_handleLogin user st1 with
          | Throw e' => (Uncaught e', st1)
          | Normal st2 => (LoggedIn user, navigate ROUTES.account st2)
          end
      end
  end.

(** Login: submit the form and let the timer fire, nothing else happening in
    between. *)
Definition Login (email password : string) (st : state) : outcome * state :=
  match LoginPage_handleSubmit email password with
  | inl msg => (ShowError msg, st)
  | inr (eMail, pass) => LoginPage_onTimeout eMail pass st
  end.

(** *** RegisterPage *)

(** [u => u.email === eMail] *)
Definition emailIs (eMail : string) (u : JSON) : completion bool :=
  do e <- Js.get u "email" ;; Normal (Js.strict_eq e (Some (JStr eMail))).

(** The object literal [{ name: fullName, email: eMail, password: pass }]. *)
Definition newUser (fullName eMail pass : string) : JSON :=
  JObj [("name", JStr fullName); ("email", JStr eMail); ("password", JStr pass)].

Definition RegisterPage_handleSubmit (name email password confirm : string) (st : state)
  : outcome * state :=
  let fullName := safeTrim name in
  let eMail := toLowerCase (safeTrim email) in
  let pass := safeTrim password in
  let conf := safeTrim confirm in
  if (String.length fullName <? 2)%nat then (ShowError "Name must be at least 2 characters.", st)
  else if negb (validateEmail (JStr eMail)) then (ShowError "Please enter a valid email.", st)
  else if (String.length pass <? 4)%nat then (ShowError "Password must be at least 4 characters.", st)
  else if negb (String.eqb pass conf) then (ShowError "Passwords do not match.", st)
  else
    match do users <- readUsers st ;; do taken <- Js.some (emailIs eMail) users ;; Normal (users, taken) with
    | Throw e => (Uncaught e, st)
    | Normal (users, true) => (ShowError "An account with this email already exists.", st)
    | Normal (users, false) =>
        (ShowSuccess "Registration successful. You can now log in.",
         writeUsers (users ++ [newUser fullName eMail pass]) st)
    end.

(** *** AccountPage *)

(** [u => u.email === session.email] *)
Definition sessionEmailIs (session : JSON) (u : JSON) : completion bool :=
  do a <- Js.get u "email" ;; do b <- Js.get session "email" ;; Normal (Js.strict_eq a b).

(** [{ ...u, name: fullName, password: pass }], where [u] is [users[idx]]. *)
Definition withNameAndPassword (u : jsval) (fullName pass : string) : JSON :=
  let own := match u with Some v => Js.ownProps v | None => [] end in
  JObj (Js.setProp (Js.setProp own "name" (JStr fullName)) "password" (JStr pass)).

(** [handleSave], with the session the page was given and the name and
    password of the edited profile. [idx] is the index of an element, so the
    assignment [users[idx] = ...] replaces that element. *)
Definition AccountPage_handleSave (session : JSON) (name password : string) (st : state)
  : outcome * state :=
  let fullName := safeTrim name in
  let pass := safeTrim password in
  if (String.length fullName <? 2)%nat then (ShowError "Name must be at least 2 characters.", st)
  else if (String.length pass <? 4)%nat then (ShowError "Password must be at least 4 characters.", st)
  else
    match do users <- readUsers st ;; do idx <- Js.findIndex (sessionEmailIs session) users ;; Normal (users, idx) with
    | Throw e => (Uncaught e, st)
    | Normal (users, idx) =>
        if (idx =? -1)%Z then (ShowError "User not found.", st)
        else
          let i := Z.to_nat idx in
          (ShowSuccess "Account updated.",
           writeUsers (<[i := withNameAndPassword (users !! i) fullName pass]> users) st)
    end.

(** UpdateProfile: the Account page saving under the App's current session. *)
Definition UpdateProfile (name password : string) (st : state) : outcome * state :=
  AccountPage_handleSave (appSession st) name password st.

(** *** The round trip [writeUsers(readUsers())] *)

Definition roundTrip (st : state) : completion state :=
  do users <- readUsers st ;; Normal (writeUsers users st).

(** *** Stores the app has populated

    A browser that holds no users record yet, and then any sequence of
    registrations, profile saves, logins and logouts. *)
Inductive populated : state -> Prop :=
| populated_fresh (st : state) :
    getItem STORAGE_KEYS.users st = None -> populated st
| populated_register (st : state) (name email password confirm : string) :
    populated st ->
    populated (snd (RegisterPage_handleSubmit name email password confirm st))
| populated_save (st : state) (session : JSON) (name password : string) :
    populated st ->
    populated (snd (AccountPage_handleSave session name password st))
| populated_login (st : state) (email password : string) :
    populated st -> populated (snd (Login email password st))
| populated_logout (st : state) :
    populated st -> populated (App_handleLogout st).

(** *** Notions the properties are stated with *)

(** [contains c s]: the code unit [c] occurs in [s], at any position. *)
Definition contains (c : ascii) (s : string) : Prop :=
  exists a b : string, s = (a ++ String c b)%string.

(** A string that does not begin with white space. *)
Definition noLeadWs (s : string) : bool :=
  match s with
  | EmptyString => true
  | String c _ => negb (isWhiteSpace c)
  end.

(** [u] is an object whose [email] is the string [e]. *)
Definition hasEmail (e : string) (u : JSON) : bool :=
  match Js.get u "email" with
  | Normal (Some (JStr x)) => String.eqb x e
  | _ => false
  end.

(** [v] is an object. *)
Definition isObject (v : JSON) : bool :=
  match v with
  | JObj _ => true
  | _ => false
  end.

(** The session is [{ email: e }]: in the store, as read back, and in the
    App's state. *)
Definition sessionIs (e : string) (st : state) : Prop :=
  getItem STORAGE_KEYS.session st = Some (JSON_stringify (JObj [("email", JStr e)])) /\
  readSession st = Normal (JObj [("email", JStr e)]) /\
  appSession st = JObj [("email", JStr e)].

(** [readsBack v]: [JSON.stringify] writes [v] as a non-empty text which
    [JSON.parse] reads as [v] again: the value survives a write and a
    read. *)
Definition readsBack (v : JSON) : Prop :=
  JSON_stringify v <> EmptyString /\ JSON_parse (JSON_stringify v) = Normal v.

(** *** Two concrete browsers

    A browser that holds nothing, and the store left by the registration of
    Jane Doe, written by the reference writer. *)

Definition freshBrowser : state :=
  {| localStorage := ∅; appSession := JNull; hash := ROUTES.login |}.

Definition janeRegistered : state :=
  setItem STORAGE_KEYS.users
    (RefJSON.stringify (JArr [newUser "Jane Doe" "jane@x.com" "abcd"])) freshBrowser.

Definition janeSession : JSON := JObj [("email", JStr "jane@x.com")].

(** The store left by the registrations of Jane Doe and John Roe, and John's
    session. *)
Definition janeAndJohn : state :=
  setItem STORAGE_KEYS.users
    (RefJSON.stringify (JArr [newUser "Jane Doe" "jane@x.com" "abcd";
                              newUser "John Roe" "john@x.com" "wxyz"])) freshBrowser.

Definition johnSession : JSON := JObj [("email", JStr "john@x.com")].

(** *** Stores the app has not written

    The users record is text in the browser's [localStorage]: it can hold any
    JSON. A list with a number beyond the double range, which [JSON.parse]
    reads as [Infinity] and [JSON.stringify] writes as [null]; Jane's record
    with such a number as a further property; a [null] before Jane's record;
    and a browser whose stored record and session carry an upper-case
    email. *)

Definition overflowStore : state :=
  setItem STORAGE_KEYS.users "[1e400]" freshBrowser.

Definition janeWithAge : state :=
  setItem STORAGE_KEYS.users
    (RefJSON.jsonText
       "[{'name':'Jane Doe','email':'jane@x.com','password':'abcd','age':1e400}]")
    freshBrowser.

Definition nullThenJane : state :=
  setItem STORAGE_KEYS.users
    (RefJSON.jsonText "[null,{'name':'Jane Doe','email':'jane@x.com','password':'abcd'}]")
    freshBrowser.

Definition upperCaseSession : JSON := JObj [("email", JStr "JANE@X.COM")].

Definition janeUpperCase : state :=
  {| localStorage :=
       localStorage
         (setItem STORAGE_KEYS.session (RefJSON.jsonText "{'email':'JANE@X.COM'}")
            (setItem STORAGE_KEYS.users
               (RefJSON.jsonText
                  "[{'name':'Jane Doe','email':'JANE@X.COM','password':'abcd'}]")
               freshBrowser));
     appSession := upperCaseSession;
     hash := ROUTES.account |}.

(** *** The rest of the router: [useHashRoute] and the page App selects *)

(** The route [useHashRoute] returns: [window.location.hash || ROUTES.login]. *)
Definition useHashRoute (st : state) : string :=
  if String.eqb (hash st) EmptyString then ROUTES.login else hash st.

(** The effect of [useHashRoute] when the App mounts:
    [if (!window.location.hash) window.location.hash = ROUTES.login]. *)
Definition useHashRoute_onMount (st : state) : state :=
  if String.eqb (hash st) EmptyString then navigate ROUTES.login st else st.

(** The page App renders. *)
Inductive page : Type :=
| LoginPageView
| RegisterPageView
| AccountPageView (session : JSON)
| NotFoundView.

Definition App_page (st : state) : page :=
  let route := useHashRoute st in
  if String.eqb route ROUTES.login then LoginPageView
  else if String.eqb route ROUTES.register then RegisterPageView
  else if String.eqb route ROUTES.account then AccountPageView (appSession st)
  else NotFoundView.

(** The effect of App that sends a logged-in user away from the login and
    register pages. *)
Definition App_redirect (st : state) : state :=
  let route := useHashRoute st in
  if Js.truthy (appSession st)
     && (String.eqb route ROUTES.login || String.eqb route ROUTES.register)
  then navigate ROUTES.account st
  else st.

(** *** The rest of AccountPage: the profile it loads, its guard and its
    field editor *)

(** The profile the page loads, in its state initializer and again in its
    effect: [session ? users.find(u => u.email === session.email) : null],
    then [user ? { ...user } : null]. *)
Definition AccountPage_profile (session : JSON) (st : state) : completion JSON :=
  do users <- readUsers st ;;
  do user <- (if Js.truthy session then Js.find (sessionEmailIs session) users
              else Normal (Some JNull)) ;;
  Normal (match user with
          | Some u => if Js.truthy u then JObj (Js.ownProps u) else JNull
          | None => JNull
          end).

(** What the page shows: the fallback when [!session || !profile], else the
    form. *)
Inductive accountView : Type :=
| MustLogIn
| ProfileForm (profile : JSON).

Definition AccountPage_view (session profile : JSON) : accountView :=
  if negb (Js.truthy session) || negb (Js.truthy profile) then MustLogIn
  else ProfileForm profile.

Definition AccountPage_render (session : JSON) (st : state) : completion accountView :=
  do profile <- AccountPage_profile session st ;; Normal (AccountPage_view session profile).

(** [handleField]: [{ ...prev, [field]: value }], for the fields the form
    edits ([name], [password]). *)
Definition AccountPage_handleField (field value : string) (prev : JSON) : JSON :=
  JObj (Js.setProp (Js.ownProps prev) field (JStr value)).

(** [Array.prototype.join] after the first element: each further element
    after a comma. *)
Fixpoint joinRest (item : JSON -> completion string) (l : list JSON) : completion string :=
  match l with
  | [] => Normal EmptyString
  | y :: l' =>
      do a <- item y ;; do b <- joinRest item l' ;; Normal ("," ++ a ++ b)%string
  end.

(** [v.toString()] for a value that is not [null]: an array joins its
    elements with commas, [null] among them counting as the empty string; an
    object gives [[object Object]], unless it owns a property [toString],
    which (no parsed value being a function) makes the call a TypeError. *)
Fixpoint valueToString (v : JSON) : completion string :=
  match v with
  | JNull => Normal "null"
  | JBool true => Normal "true"
  | JBool false => Normal "false"
  | JNum r => Normal r
  | JStr s => Normal s
  | JArr l =>
      let item := fun x => match x with JNull => Normal EmptyString | _ => valueToString x end in
      match l with
      | [] => Normal EmptyString
      | x :: l' => do a <- item x ;; do b <- joinRest item l' ;; Normal (a ++ b)%string
      end
  | JObj ps =>
      match Js.assoc "toString" ps with
      | Some _ => Throw TypeError
      | None => Normal "[object Object]"
      end
  end.

(** [safeTrim] on any value: the value, or the empty string when the value
    is falsy, then [.toString().trim()]. *)
Definition safeTrimValue (value : jsval) : completion string :=
  do text <- match value with
             | Some v => if Js.truthy v then valueToString v else Normal EmptyString
             | None => Normal EmptyString
             end ;;
  Normal (trim text).

(** [handleSave] as the page runs it, reading the name and the password off
    the profile in its state. *)
Definition AccountPage_submit (session profile : JSON) (st : state) : outcome * state :=
  match do n <- Js.get profile "name" ;; do fullName <- safeTrimValue n ;;
        do p <- Js.get profile "password" ;; do pass <- safeTrimValue p ;;
        Normal (fullName, pass) with
  | Throw e => (Uncaught e, st)
  | Normal (fullName, pass) =>
      if (String.length fullName <? 2)%nat
      then (ShowError "Name must be at least 2 characters.", st)
      else if (String.length pass <? 4)%nat
      then (ShowError "Password must be at least 4 characters.", st)
      else
        match do users <- readUsers st ;;
              do idx <- Js.findIndex (sessionEmailIs session) users ;;
              Normal (users, idx) with
        | Throw e => (Uncaught e, st)
        | Normal (users, idx) =>
            if (idx =? -1)%Z then (ShowError "User not found.", st)
            else
              let i := Z.to_nat idx in
              (ShowSuccess "Account updated.",
               writeUsers (<[i := withNameAndPassword (users !! i) fullName pass]> users) st)
        end
  end.

(** No two elements of the list are objects with the same [email]. *)
Definition uniqueEmails (users : list JSON) : Prop :=
  forall (i j : nat) (ui uj : JSON) (e : string),
    users !! i = Some ui -> users !! j = Some uj ->
    hasEmail e ui = true -> hasEmail e uj = true -> i = j.

(** The users record holds the text [writeUsers] writes for the list, or is
    absent and the list empty. *)
Definition usersWritten (users : list JSON) (st : state) : Prop :=
  (getItem STORAGE_KEYS.users st = None /\ users = []) \/
  getItem STORAGE_KEYS.users st = Some (JSON_stringify (JArr users)).


(** ** Facts about the string primitives *)

Example trim_ex : trim "  ab c
 " = "ab c".
Proof. reflexivity. Qed.

Example lower_ex : toLowerCase "JANE@X.COM" = "jane@x.com".
Proof. reflexivity. Qed.

Example includes_ex : includes "a@b" "@" = true /\ includes "ab" "@" = false.
Proof. split; reflexivity. Qed.

Lemma isWhiteSpace_lowerChar (c : ascii) : isWhiteSpace (lowerChar c) = isWhiteSpace c.
Proof. destruct c as [[] [] [] [] [] [] [] []]; reflexivity. Qed.

Lemma lowerChar_idem (c : ascii) : lowerChar (lowerChar c) = lowerChar c.
Proof. destruct c as [[] [] [] [] [] [] [] []]; reflexivity. Qed.

Lemma toLowerCase_idem (s : string) : toLowerCase (toLowerCase s) = toLowerCase s.
Proof.
  induction s as [|c s IH]; simpl; [reflexivity|].
  now rewrite lowerChar_idem, IH.
Qed.

Lemma trimStart_toLowerCase (s : string) :
  trimStart (toLowerCase s) = toLowerCase (trimStart s).
Proof.
  induction s as [|c s IH]; simpl; [reflexivity|].
  rewrite isWhiteSpace_lowerChar. destruct (isWhiteSpace c); [exact IH | reflexivity].
Qed.

Lemma trimEnd_toLowerCase (s : string) :
  trimEnd (toLowerCase s) = toLowerCase (trimEnd s).
Proof.
  induction s as [|c s IH]; simpl; [reflexivity|].
  rewrite IH, isWhiteSpace_lowerChar.
  destruct (trimEnd s); simpl; [destruct (isWhiteSpace c)|]; reflexivity.
Qed.

Lemma trim_toLowerCase (s : string) : trim (toLowerCase s) = toLowerCase (trim s).
Proof. unfold trim. now rewrite trimStart_toLowerCase, trimEnd_toLowerCase. Qed.


Lemma noLeadWs_trimStart (s : string) : noLeadWs (trimStart s) = true.
Proof.
  induction s as [|c s IH]; simpl; [reflexivity|].
  destruct (isWhiteSpace c) eqn:E; [exact IH | simpl; now rewrite E].
Qed.

Lemma trimStart_noLeadWs (s : string) : noLeadWs s = true -> trimStart s = s.
Proof.
  destruct s as [|c s]; simpl; [reflexivity|].
  now destruct (isWhiteSpace c).
Qed.

Lemma noLeadWs_trimEnd (s : string) : noLeadWs s = true -> noLeadWs (trimEnd s) = true.
Proof.
  destruct s as [|c s]; simpl; [reflexivity|]. intros H.
  destruct (trimEnd s); simpl; [|exact H].
  destruct (isWhiteSpace c) eqn:W; simpl; [reflexivity | now rewrite W].
Qed.

Lemma trimEnd_idem (s : string) : trimEnd (trimEnd s) = trimEnd s.
Proof.
  induction s as [|c s IH]; simpl; [reflexivity|].
  destruct (trimEnd s) as [|d t] eqn:E.
  - destruct (isWhiteSpace c) eqn:W; simpl; [reflexivity | now rewrite W].
  - change (trimEnd (String c (String d t))) with
      (match trimEnd (String d t) with
       | EmptyString => if isWhiteSpace c then EmptyString else String c EmptyString
       | String a t' => String c (String a t')
       end).
    now rewrite IH.
Qed.

Lemma trim_idem (s : string) : trim (trim s) = trim s.
Proof.
  unfold trim.
  rewrite (trimStart_noLeadWs (trimEnd (trimStart s))).
  - apply trimEnd_idem.
  - apply noLeadWs_trimEnd, noLeadWs_trimStart.
Qed.

Lemma trimStart_allWhiteSpace (w : string) : allWhiteSpace w = true -> trimStart w = EmptyString.
Proof.
  induction w as [|c w IH]; simpl; [reflexivity|].
  destruct (isWhiteSpace c); simpl; [exact IH | discriminate].
Qed.

Lemma trimEnd_allWhiteSpace (w : string) : allWhiteSpace w = true -> trimEnd w = EmptyString.
Proof.
  induction w as [|c w IH]; simpl; [reflexivity|].
  destruct (isWhiteSpace c); simpl; [|discriminate].
  intros H. now rewrite (IH H).
Qed.

Lemma trimStart_app_l (w s : string) :
  allWhiteSpace w = true -> trimStart (w ++ s) = trimStart s.
Proof.
  induction w as [|c w IH]; simpl; [reflexivity|].
  destruct (isWhiteSpace c); simpl; [exact IH | discriminate].
Qed.

Lemma trimEnd_app_r (s w : string) :
  allWhiteSpace w = true -> trimEnd (s ++ w) = trimEnd s.
Proof.
  intros H. induction s as [|c s IH]; simpl.
  - now apply trimEnd_allWhiteSpace.
  - now rewrite IH.
Qed.

Lemma trimStart_app_r (s w : string) :
  allWhiteSpace w = true ->
  trimStart (s ++ w) =
    match trimStart s with
    | EmptyString => EmptyString
    | t => (t ++ w)%string
    end.
Proof.
  intros H. induction s as [|c s IH]; simpl.
  - now apply trimStart_allWhiteSpace.
  - destruct (isWhiteSpace c); [exact IH | reflexivity].
Qed.

(** Padding a string with white space on both sides does not change what
    [trim] returns. *)
Lemma trim_padded (w1 s w2 : string) :
  allWhiteSpace w1 = true -> allWhiteSpace w2 = true ->
  trim (w1 ++ (s ++ w2)) = trim s.
Proof.
  intros H1 H2. unfold trim.
  rewrite trimStart_app_l by exact H1.
  rewrite trimStart_app_r by exact H2.
  destruct (trimStart s) as [|c t]; [reflexivity|].
  now apply trimEnd_app_r.
Qed.

Lemma safeTrim_trim (s : string) : safeTrim s = trim s.
Proof. unfold safeTrim. now destruct s. Qed.


Lemma prefix_single (c : ascii) (s : string) :
  String.prefix (String c EmptyString) s = true <-> exists b, s = String c b.
Proof.
  destruct s as [|d s]; simpl.
  - split; [discriminate | intros [b Hb]; discriminate].
  - destruct (ascii_dec c d) as [->|Hne]; split; intros H.
    + now exists s.
    + now destruct s.
    + discriminate.
    + destruct H as [b Hb]. congruence.
Qed.

Lemma includes_single (c : ascii) (s : string) :
  includes s (String c EmptyString) = true <-> contains c s.
Proof.
  induction s as [|d s IH].
  - simpl. split; [discriminate|].
    intros (a & b & H). destruct a; discriminate.
  - cbn [includes]. rewrite orb_true_iff, prefix_single, IH. split.
    + intros [[b Hb] | (a & b & Hab)].
      * exists EmptyString, b. exact Hb.
      * exists (String d a), b. simpl. now rewrite Hab.
    + intros (a & b & Hab). destruct a as [|d' a]; simpl in Hab.
      * left. now exists b.
      * right. exists a, b. now inversion Hab.
Qed.

(** ** Facts about the storage utilities *)

Lemma readUsers_returns (st : state) : exists l, readUsers st = Normal l.
Proof.
  unfold readUsers. destruct (getItem STORAGE_KEYS.users st) as [raw|]; simpl; [|eauto].
  destruct (String.eqb raw EmptyString); simpl; [eauto|].
  destruct (JSON_parse raw) as [[]|]; simpl; eauto.
Qed.

Lemma readSession_returns (st : state) : exists v, readSession st = Normal v.
Proof.
  unfold readSession. destruct (getItem STORAGE_KEYS.session st) as [raw|]; simpl; [|eauto].
  destruct (String.eqb raw EmptyString); simpl; [eauto|].
  destruct (JSON_parse raw); simpl; eauto.
Qed.

Lemma readUsers_ext (st st' : state) :
  getItem STORAGE_KEYS.users st' = getItem STORAGE_KEYS.users st ->
  readUsers st' = readUsers st.
Proof. unfold readUsers. now intros ->. Qed.

Lemma readSession_ext (st st' : state) :
  getItem STORAGE_KEYS.session st' = getItem STORAGE_KEYS.session st ->
  readSession st' = readSession st.
Proof. unfold readSession. now intros ->. Qed.

Lemma getItem_setItem (k v : string) (st : state) : getItem k (setItem k v st) = Some v.
Proof. unfold getItem, setItem. simpl. apply lookup_insert_eq. Qed.

Lemma getItem_setItem_ne (k k' v : string) (st : state) :
  k <> k' -> getItem k' (setItem k v st) = getItem k' st.
Proof. intros H. unfold getItem, setItem. simpl. now apply lookup_insert_ne. Qed.

Lemma getItem_removeItem_ne (k k' : string) (st : state) :
  k <> k' -> getItem k' (removeItem k st) = getItem k' st.
Proof. intros H. unfold getItem, removeItem. simpl. now apply lookup_delete_ne. Qed.

Lemma keys_differ : STORAGE_KEYS.users <> STORAGE_KEYS.session.
Proof. discriminate. Qed.

Lemma readSession_writeUsers (l : list JSON) (st : state) :
  readSession (writeUsers l st) = readSession st.
Proof. apply readSession_ext, getItem_setItem_ne, keys_differ. Qed.

Lemma readUsers_writeSession (s : JSON) (st : state) :
  readUsers (writeSession s st) = readUsers st.
Proof.
  apply readUsers_ext. unfold writeSession.
  destruct (negb (Js.truthy s)).
  - apply getItem_removeItem_ne. intros H. now apply keys_differ.
  - apply getItem_setItem_ne. intros H. now apply keys_differ.
Qed.

Lemma getItem_writeUsers (l : list JSON) (st : state) :
  getItem STORAGE_KEYS.users (writeUsers l st) = Some (JSON_stringify (JArr l)).
Proof. apply getItem_setItem. Qed.

Lemma readUsers_writeUsers_back (l : list JSON) (st : state) :
  readsBack (JArr l) -> readUsers (writeUsers l st) = Normal l.
Proof.
  intros [Hne Hback]. unfold readUsers. rewrite getItem_writeUsers.
  destruct (String.eqb_spec (JSON_stringify (JArr l)) EmptyString) as [E|_].
  - now apply Hne in E.
  - now rewrite Hback.
Qed.

Lemma readSession_writeSession_back (s : JSON) (st : state) :
  readsBack s -> Js.truthy s = true -> readSession (writeSession s st) = Normal s.
Proof.
  intros [Hne Hback] Ht. unfold writeSession, readSession. rewrite Ht. simpl.
  rewrite getItem_setItem.
  destruct (String.eqb_spec (JSON_stringify s) EmptyString) as [E|_].
  - now apply Hne in E.
  - now rewrite Hback.
Qed.

(** ** Facts about the array searches *)

Lemma find_app (f : JSON -> completion bool) (l1 l2 : list JSON) :
  Js.find f l1 = Normal None -> Js.find f (l1 ++ l2) = Js.find f l2.
Proof.
  induction l1 as [|u l1 IH]; simpl; [reflexivity|].
  destruct (f u) as [[]|]; simpl; try discriminate. exact IH.
Qed.

Lemma some_app (f : JSON -> completion bool) (l1 l2 : list JSON) :
  Js.some f l1 = Normal false -> Js.some f (l1 ++ l2) = Js.some f l2.
Proof.
  induction l1 as [|u l1 IH]; simpl; [reflexivity|].
  destruct (f u) as [[]|]; simpl; try discriminate. exact IH.
Qed.

Lemma some_false_iff (f : JSON -> completion bool) (l : list JSON) :
  Js.some f l = Normal false <-> Forall (fun u => f u = Normal false) l.
Proof.
  induction l as [|u l IH]; simpl.
  - split; [constructor | reflexivity].
  - split.
    + destruct (f u) as [[]|] eqn:E; simpl; try discriminate.
      intros H. constructor; [exact E | now apply IH].
    + intros H. inversion H as [|? ? Hu Hl]; subst. rewrite Hu. simpl. now apply IH.
Qed.

Lemma find_none_iff (f : JSON -> completion bool) (l : list JSON) :
  Js.find f l = Normal None <-> Forall (fun u => f u = Normal false) l.
Proof.
  induction l as [|u l IH]; simpl.
  - split; [constructor | reflexivity].
  - split.
    + destruct (f u) as [[]|] eqn:E; simpl; try discriminate.
      intros H. constructor; [exact E | now apply IH].
    + intros H. inversion H as [|? ? Hu Hl]; subst. rewrite Hu. simpl. now apply IH.
Qed.

Lemma emailIs_false_credentialsMatch (eMail pass : string) (u : JSON) :
  emailIs eMail u = Normal false -> credentialsMatch eMail pass u = Normal false.
Proof.
  unfold emailIs, credentialsMatch.
  destruct (Js.get u "email") as [e|]; simpl; [|discriminate].
  destruct (Js.strict_eq e (Some (JStr eMail))); [discriminate | reflexivity].
Qed.

Lemma credentialsMatch_newUser (fullName eMail pass : string) :
  credentialsMatch eMail pass (newUser fullName eMail pass) = Normal true.
Proof.
  unfold credentialsMatch, newUser. simpl. now rewrite !String.eqb_refl.
Qed.

Lemma emailIs_newUser (fullName eMail pass : string) :
  emailIs eMail (newUser fullName eMail pass) = Normal true.
Proof. unfold emailIs, newUser. simpl. now rewrite String.eqb_refl. Qed.

(** ** Validation rules *)

(** C7: for every string [s], [validateEmail] answers true when [s] contains
    both the character "@" and the character ".", wherever they stand, and
    false when [s] lacks "@" or lacks ".". *)
Theorem validateEmail_at_and_dot (s : string) :
  (contains "@" s /\ contains "." s -> validateEmail (JStr s) = true) /\
  (~ contains "@" s \/ ~ contains "." s -> validateEmail (JStr s) = false).
Proof.
  unfold validateEmail. split.
  - intros [Ha Hd]. apply includes_single in Ha, Hd. now rewrite Ha, Hd.
  - intros H. apply not_true_is_false. rewrite andb_true_iff, !includes_single.
    intros [Ha Hd]. destruct H as [H|H]; contradiction.
Qed.

(** ** Reading the store *)

(** C9: whatever the store holds, [readUsers] returns the empty list when the
    users record is absent, is not JSON, or is JSON but not an array, and
    [readSession] returns null when the session record is absent or is not
    JSON; neither of them throws. *)
Theorem readers_fall_back (st : state) :
  (exists l, readUsers st = Normal l) /\
  (exists v, readSession st = Normal v) /\
  (getItem STORAGE_KEYS.users st = None -> readUsers st = Normal []) /\
  (forall raw e, getItem STORAGE_KEYS.users st = Some raw ->
     JSON_parse raw = Throw e -> readUsers st = Normal []) /\
  (forall raw v, getItem STORAGE_KEYS.users st = Some raw ->
     JSON_parse raw = Normal v -> (forall l, v <> JArr l) -> readUsers st = Normal []) /\
  (getItem STORAGE_KEYS.session st = None -> readSession st = Normal JNull) /\
  (forall raw e, getItem STORAGE_KEYS.session st = Some raw ->
     JSON_parse raw = Throw e -> readSession st = Normal JNull).
Proof.
  split; [apply readUsers_returns|]. split; [apply readSession_returns|].
  unfold readUsers, readSession. repeat split.
  - now intros ->.
  - intros raw e -> Hp. destruct (String.eqb raw EmptyString); [reflexivity|].
    now rewrite Hp.
  - intros raw v -> Hp Hv. destruct (String.eqb raw EmptyString); [reflexivity|].
    rewrite Hp. simpl. destruct v; try reflexivity. now destruct (Hv elems).
  - now intros ->.
  - intros raw e -> Hp. destruct (String.eqb raw EmptyString); [reflexivity|].
    now rewrite Hp.
Qed.


(** ** Login without a matching record *)

(** A login that does not end logged in changes nothing: no session is
    written, and the App keeps the session it had. *)
Lemma Login_failure_frame (email password : string) (st : state) :
  (forall user, fst (Login email password st) <> LoggedIn user) ->
  snd (Login email password st) = st.
Proof.
  unfold Login. destruct (LoginPage_handleSubmit email password) as [msg|[eMail pass]];
    [reflexivity|].
  unfold LoginPage_onTimeout.
  destruct (do users <- readUsers st ;; Js.find (credentialsMatch eMail pass) users)
    as [[user|]|]; try reflexivity.
  destruct (Js.get user "email") as [e|] eqn:E; [|reflexivity].
  unfold App_handleLogin. rewrite E. simpl. intros H. now destruct (H user).
Qed.


(** ** Saving the profile: the rejections *)



(** ** Registering: the order of the rules *)



(** ** What the handlers need of the platform's JSON

    Writing a [plain] value gives a non-empty text, and reading that text
    gives the value back. *)
Hypothesis parse_stringify :
  forall v : JSON, plain v = true -> JSON_parse (JSON_stringify v) = Normal v.
Hypothesis stringify_nonempty :
  forall v : JSON, plain v = true -> JSON_stringify v <> EmptyString.

Lemma plain_readsBack (v : JSON) : plain v = true -> readsBack v.
Proof. intros Hp. split; [now apply stringify_nonempty | now apply parse_stringify]. Qed.

Lemma readUsers_setItem (l : list JSON) (st : state) :
  forallb plain l = true ->
  readUsers (setItem STORAGE_KEYS.users (JSON_stringify (JArr l)) st) = Normal l.
Proof.
  intros Hl. unfold readUsers. rewrite getItem_setItem.
  destruct (String.eqb_spec (JSON_stringify (JArr l)) EmptyString) as [E|_].
  - now apply stringify_nonempty in E.
  - now rewrite parse_stringify.
Qed.

Lemma readUsers_writeUsers (l : list JSON) (st : state) :
  forallb plain l = true -> readUsers (writeUsers l st) = Normal l.
Proof. apply readUsers_setItem. Qed.

Lemma readSession_writeSession (s : JSON) (st : state) :
  plain s = true -> Js.truthy s = true -> readSession (writeSession s st) = Normal s.
Proof.
  intros Hp Ht. unfold writeSession, readSession. rewrite Ht. simpl.
  rewrite getItem_setItem.
  destruct (String.eqb_spec (JSON_stringify s) EmptyString) as [E|_].
  - now apply stringify_nonempty in E.
  - now rewrite parse_stringify.
Qed.


(** ** Registering, then logging in *)


(** Logging in when the first record with these credentials is
    [{name: n, email: e, password: p}]. *)
Lemma Login_finds (email password : string) (st : state) (old rest : list JSON)
    (n e p : string) :
  readUsers st = Normal (old ++ newUser n e p :: rest) ->
  Forall (fun u => credentialsMatch e p u = Normal false) old ->
  toLowerCase (safeTrim email) = e -> safeTrim password = p ->
  validateEmail (JStr e) = true -> 4 <= String.length p ->
  fst (Login email password st) = LoggedIn (newUser n e p) /\
  sessionIs e (snd (Login email password st)) /\
  hash (snd (Login email password st)) = ROUTES.account /\
  readUsers (snd (Login email password st)) = readUsers st.
Proof.
  intros Hr Hold He Hp Hv Hlen. unfold Login, LoginPage_handleSubmit.
  rewrite He, Hp, Hv. simpl.
  destruct (Nat.ltb_spec (String.length p) 4) as [|_]; [lia|].
  unfold LoginPage_onTimeout. rewrite Hr. simpl.
  apply find_none_iff in Hold. rewrite (find_app _ _ _ Hold). simpl.
  rewrite credentialsMatch_newUser. simpl.
  split; [reflexivity|]. split; [|split; [reflexivity|]].
  - split; [apply getItem_setItem|]. split; [|reflexivity].
    apply (readSession_writeSession (JObj [("email", JStr e)])); reflexivity.
  - rewrite <- Hr. exact (readUsers_writeSession (JObj [("email", JStr e)]) st).
Qed.

(** What a successful registration did. *)
Lemma Register_success_inv (name email password confirm msg : string) (st st' : state)
    (users : list JSON) :
  readUsers st = Normal users ->
  RegisterPage_handleSubmit name email password confirm st = (ShowSuccess msg, st') ->
  let fullName := safeTrim name in
  let eMail := toLowerCase (safeTrim email) in
  let pass := safeTrim password in
  2 <= String.length fullName /\ validateEmail (JStr eMail) = true /\
  4 <= String.length pass /\ pass = safeTrim confirm /\
  Forall (fun u => emailIs eMail u = Normal false) users /\
  st' = writeUsers (users ++ [newUser fullName eMail pass]) st.
Proof.
  intros Hr. unfold RegisterPage_handleSubmit. rewrite Hr.
  destruct (Nat.ltb_spec (String.length (safeTrim name)) 2) as [Hlt|Hn];
    [intros H; discriminate H|].
  destruct (validateEmail (JStr (toLowerCase (safeTrim email)))); simpl;
    [|intros H; discriminate H].
  destruct (Nat.ltb_spec (String.length (safeTrim password)) 4) as [Hlt|Hp];
    [intros H; discriminate H|].
  destruct (String.eqb_spec (safeTrim password) (safeTrim confirm)) as [Hc|];
    simpl; [|intros H; discriminate H].
  unfold bind.
  destruct (Js.some (emailIs (toLowerCase (safeTrim email))) users) as [[]|] eqn:Hs;
    try (intros H; discriminate H).
  intros H. inversion H; subst. apply some_false_iff in Hs. repeat split; auto.
Qed.

Lemma forallb_plain_snoc (users : list JSON) (fullName eMail pass : string) :
  forallb plain users = true ->
  forallb plain (users ++ [newUser fullName eMail pass]) = true.
Proof. intros H. rewrite forallb_app, H. reflexivity. Qed.

Lemma lower_trim_padded_variant (w1 v w2 email : string) :
  allWhiteSpace w1 = true -> allWhiteSpace w2 = true ->
  toLowerCase v = toLowerCase email ->
  toLowerCase (safeTrim (w1 ++ (v ++ w2))) = toLowerCase (safeTrim email).
Proof.
  intros H1 H2 Hv. rewrite !safeTrim_trim, trim_padded by assumption.
  now rewrite <- !trim_toLowerCase, Hv.
Qed.

(** C1, amended: after a registration that passed validation, on a store
    whose list with the new record at its end survives a write and a read,
    a login with the same email, in any letter case and with any white space
    around it, and the same password with any white space around it,
    succeeds: it finds the record just stored and sets the session to
    [{ email: e }], [e] being the stored lower-case email. In particular,
    when the store holds the one record of Jane Doe, with email jane@x.com
    and password abcd, the login with JANE@X.COM and the password abcd
    between spaces succeeds and the session becomes
    [{ email: jane@x.com }]. *)
Theorem register_then_login :
  (forall (name email password confirm msg : string) (st st' : state) (users : list JSON)
          (w1 v w2 w3 w4 : string),
     readUsers st = Normal users ->
     RegisterPage_handleSubmit name email password confirm st = (ShowSuccess msg, st') ->
     readsBack (JArr (users ++ [newUser (safeTrim name) (toLowerCase (safeTrim email))
                                  (safeTrim password)])) ->
     allWhiteSpace w1 = true -> allWhiteSpace w2 = true ->
     toLowerCase v = toLowerCase email ->
     allWhiteSpace w3 = true -> allWhiteSpace w4 = true ->
     let e := toLowerCase (safeTrim email) in
     let r := Login (w1 ++ (v ++ w2)) (w3 ++ (password ++ w4)) st' in
     fst r = LoggedIn (newUser (safeTrim name) e (safeTrim password)) /\
     sessionIs e (snd r)) /\
  (forall st : state,
     readUsers st = Normal [newUser "Jane Doe" "jane@x.com" "abcd"] ->
     let r := Login "JANE@X.COM" " abcd " st in
     fst r = LoggedIn (newUser "Jane Doe" "jane@x.com" "abcd") /\
     sessionIs "jane@x.com" (snd r)).
Proof.
  split.
  - intros name email password confirm msg st st' users w1 v w2 w3 w4
      Hr Hreg Hback Hw1 Hw2 Hv Hw3 Hw4 e r.
    destruct (Register_success_inv _ _ _ _ _ _ _ _ Hr Hreg)
      as (Hn & Hve & Hp & Hc & Hnew & ->).
    assert (Hr' : readUsers (writeUsers (users ++ [newUser (safeTrim name) e (safeTrim password)]) st)
                  = Normal (users ++ [newUser (safeTrim name) e (safeTrim password)])).
    { apply readUsers_writeUsers_back, Hback. }
    destruct (Login_finds (w1 ++ (v ++ w2)) (w3 ++ (password ++ w4)) _ users []
                (safeTrim name) e (safeTrim password) Hr') as (H1 & H2 & _).
    + eapply Forall_impl; [exact Hnew|]. intros u. apply emailIs_false_credentialsMatch.
    + now apply lower_trim_padded_variant.
    + rewrite !safeTrim_trim. now apply trim_padded.
    + exact Hve.
    + exact Hp.
    + split; assumption.
  - intros st Hr r.
    destruct (Login_finds "JANE@X.COM" " abcd " st [] [] "Jane Doe" "jane@x.com" "abcd" Hr)
      as (H1 & H2 & _).
    + apply Forall_nil_2.
    + reflexivity.
    + reflexivity.
    + reflexivity.
    + simpl. lia.
    + split; assumption.
Qed.


(** ** Registering twice with one email *)


Lemma emailIs_hasEmail (e : string) (u : JSON) (b : bool) :
  emailIs e u = Normal b -> hasEmail e u = b.
Proof.
  unfold emailIs, hasEmail. destruct (Js.get u "email") as [[[]|]|]; simpl;
    intros H; inversion H; reflexivity.
Qed.

Lemma filter_hasEmail_none (e : string) (l : list JSON) :
  Forall (fun u => emailIs e u = Normal false) l -> List.filter (hasEmail e) l = [].
Proof.
  induction 1 as [|u l Hu _ IH]; simpl; [reflexivity|].
  now rewrite (emailIs_hasEmail _ _ _ Hu).
Qed.

Lemma some_taken_after (e n p : string) (users : list JSON) :
  Forall (fun u => emailIs e u = Normal false) users ->
  Js.some (emailIs e) (users ++ [newUser n e p]) = Normal true.
Proof.
  intros H. apply some_false_iff in H. rewrite (some_app _ _ _ H).
  cbn [Js.some]. now rewrite emailIs_newUser.
Qed.

(** C3, amended: after a registration that succeeded, on a store whose list
    with the new record at its end survives a write and a read, a second
    registration with the same email up to letter case and surrounding white
    space fails and writes nothing. Its message is that of the first of its
    own rules that fails, in the order name, password, confirmation; it is
    the duplicate-email message when all three pass. The stored list holds
    exactly one record with that lower-case email. *)
Theorem register_same_email_twice
    (name1 email1 password1 confirm1 msg name2 email2 password2 confirm2 : string)
    (st st1 : state) (users : list JSON) :
  readUsers st = Normal users ->
  RegisterPage_handleSubmit name1 email1 password1 confirm1 st = (ShowSuccess msg, st1) ->
  readsBack (JArr (users ++ [newUser (safeTrim name1) (toLowerCase (safeTrim email1))
                               (safeTrim password1)])) ->
  toLowerCase (safeTrim email2) = toLowerCase (safeTrim email1) ->
  let e := toLowerCase (safeTrim email1) in
  let fullName := safeTrim name2 in
  let pass := safeTrim password2 in
  let conf := safeTrim confirm2 in
  let r := RegisterPage_handleSubmit name2 email2 password2 confirm2 st1 in
  snd r = st1 /\
  (String.length fullName < 2 ->
     fst r = ShowError "Name must be at least 2 characters.") /\
  (2 <= String.length fullName -> String.length pass < 4 ->
     fst r = ShowError "Password must be at least 4 characters.") /\
  (2 <= String.length fullName -> 4 <= String.length pass -> pass <> conf ->
     fst r = ShowError "Passwords do not match.") /\
  (2 <= String.length fullName -> 4 <= String.length pass -> pass = conf ->
     fst r = ShowError "An account with this email already exists.") /\
  (exists users1, readUsers (snd r) = Normal users1 /\
     length users1 = S (length users) /\
     length (List.filter (hasEmail e) users1) = 1).
Proof.
  intros Hr Hreg Hback He e fullName pass conf r. subst e r fullName pass conf.
  destruct (Register_success_inv _ _ _ _ _ _ _ _ Hr Hreg)
    as (Hn & Hve & Hp & Hc & Hnew & ->).
  set (e := toLowerCase (safeTrim email1)) in *.
  set (users1 := users ++ [newUser (safeTrim name1) e (safeTrim password1)]) in *.
  set (r := RegisterPage_handleSubmit name2 email2 password2 confirm2 (writeUsers users1 st)).
  assert (Hr1 : readUsers (writeUsers users1 st) = Normal users1).
  { apply readUsers_writeUsers_back, Hback. }
  assert (Htaken : Js.some (emailIs e) users1 = Normal true).
  { now apply some_taken_after. }
  assert (Hcases :
    r = (ShowError
           (if (String.length (safeTrim name2) <? 2)%nat
            then "Name must be at least 2 characters."
            else if (String.length (safeTrim password2) <? 4)%nat
            then "Password must be at least 4 characters."
            else if negb (String.eqb (safeTrim password2) (safeTrim confirm2))
            then "Passwords do not match."
            else "An account with this email already exists."),
         writeUsers users1 st)).
  { subst r. unfold RegisterPage_handleSubmit. rewrite He.
    rewrite Hve, Hr1. unfold bind. rewrite Htaken. simpl.
    destruct (String.length (safeTrim name2) <? 2)%nat; [reflexivity|].
    destruct (String.length (safeTrim password2) <? 4)%nat; [reflexivity|].
    destruct (negb (String.eqb (safeTrim password2) (safeTrim confirm2))); reflexivity. }
  assert (Hstored : exists l, readUsers (writeUsers users1 st) = Normal l /\
            length l = S (length users) /\ length (List.filter (hasEmail e) l) = 1).
  { exists users1. split; [exact Hr1|]. unfold users1. split.
    - rewrite length_app. simpl. lia.
    - rewrite List.filter_app, (filter_hasEmail_none _ _ Hnew). simpl.
      unfold hasEmail. simpl. now rewrite String.eqb_refl. }
  rewrite Hcases. simpl. split; [reflexivity|].
  destruct (Nat.ltb_spec (String.length (safeTrim name2)) 2) as [Hn2|Hn2].
  { split; [reflexivity|]. split; [lia|]. split; [lia|]. split; [lia | exact Hstored]. }
  split; [lia|].
  destruct (Nat.ltb_spec (String.length (safeTrim password2)) 4) as [Hp2|Hp2].
  { split; [reflexivity|]. split; [lia|]. split; [lia | exact Hstored]. }
  split; [lia|].
  destruct (String.eqb_spec (safeTrim password2) (safeTrim confirm2)) as [Hc2|Hc2]; simpl.
  - split; [contradiction|]. split; [reflexivity | exact Hstored].
  - split; [reflexivity|]. split; [contradiction | exact Hstored].
Qed.


(** ** Saving the profile: what is written *)


Lemma sessionEmailIs_object (session u : JSON) (e : string) :
  isObject u = true -> Js.get session "email" = Normal (Some (JStr e)) ->
  sessionEmailIs session u = Normal (hasEmail e u).
Proof.
  intros Hu Hs. destruct u; try discriminate.
  unfold sessionEmailIs, hasEmail. rewrite Hs. simpl.
  destruct (Js.assoc "email" props) as [[]|]; reflexivity.
Qed.

Lemma findIndexFrom_first (f : JSON -> completion bool) (g : JSON -> bool)
    (l : list JSON) (i : Z) :
  Forall (fun u => f u = Normal (g u)) l -> existsb g l = true ->
  exists (k : nat) (u : JSON),
    Js.findIndexFrom i f l = Normal (i + Z.of_nat k)%Z /\
    l !! k = Some u /\ g u = true /\
    (forall j uj, j < k -> l !! j = Some uj -> g uj = false).
Proof.
  intros H. revert i. induction H as [|u l Hu _ IH]; intros i; simpl; [discriminate|].
  rewrite Hu. simpl. destruct (g u) eqn:G; simpl.
  - intros _. exists 0, u. rewrite Z.add_0_r. repeat split; auto. intros j uj Hj. lia.
  - intros Hex. destruct (IH (i + 1)%Z Hex) as (k & u' & Hf & Hk & Hg & Hfirst).
    exists (S k), u'. rewrite Hf. repeat split; auto.
    + f_equal. lia.
    + intros [|j] uj Hj; simpl; intros Hl.
      * now inversion Hl; subst.
      * apply (Hfirst j); [lia | exact Hl].
Qed.

Lemma assoc_setProp (ps : list (string * JSON)) (k : string) (v : JSON) :
  Js.assoc k (Js.setProp ps k v) = Some v.
Proof.
  induction ps as [|[k' v'] ps IH]; simpl.
  - now rewrite String.eqb_refl.
  - destruct (String.eqb_spec k' k) as [->|Hne]; simpl.
    + now rewrite String.eqb_refl.
    + destruct (String.eqb_spec k' k); [contradiction | exact IH].
Qed.

Lemma assoc_setProp_ne (ps : list (string * JSON)) (k k' : string) (v : JSON) :
  k <> k' -> Js.assoc k' (Js.setProp ps k v) = Js.assoc k' ps.
Proof.
  intros Hne. induction ps as [|[k0 v0] ps IH]; simpl.
  - destruct (String.eqb_spec k k'); [contradiction | reflexivity].
  - destruct (String.eqb_spec k0 k) as [->|Hk]; simpl.
    + destruct (String.eqb_spec k k'); [contradiction | reflexivity].
    + now rewrite IH.
Qed.

Lemma existsb_eqb_setProp (ps : list (string * JSON)) (k k0 : string) (v : JSON) :
  k0 <> k ->
  existsb (String.eqb k0) (map fst (Js.setProp ps k v)) = existsb (String.eqb k0) (map fst ps).
Proof.
  intros Hne. induction ps as [|[k' v'] ps IH]; simpl.
  - destruct (String.eqb_spec k0 k); [contradiction | reflexivity].
  - destruct (String.eqb_spec k' k) as [->|Hk]; simpl.
    + destruct (String.eqb_spec k0 k); [contradiction | reflexivity].
    + now rewrite IH.
Qed.

Lemma distinct_setProp (ps : list (string * JSON)) (k : string) (v : JSON) :
  distinct (map fst ps) = true -> distinct (map fst (Js.setProp ps k v)) = true.
Proof.
  induction ps as [|[k' v'] ps IH]; simpl; [reflexivity|].
  rewrite andb_true_iff, negb_true_iff. intros [Hk Hd].
  destruct (String.eqb_spec k' k) as [->|Hne]; simpl.
  - now rewrite Hk, Hd.
  - now rewrite (existsb_eqb_setProp _ _ _ _ Hne), Hk, IH.
Qed.

Lemma forallb_setProp (P : string * JSON -> bool) (ps : list (string * JSON))
    (k : string) (v : JSON) :
  P (k, v) = true -> forallb P ps = true -> forallb P (Js.setProp ps k v) = true.
Proof.
  intros Hv. induction ps as [|[k' v'] ps IH]; simpl.
  - now rewrite Hv.
  - rewrite andb_true_iff. intros [H1 H2].
    destruct (String.eqb k' k); simpl.
    + now rewrite Hv, H2.
    + now rewrite H1, IH.
Qed.

Lemma plain_withNameAndPassword (ps : list (string * JSON)) (fullName pass : string) :
  plain (JObj ps) = true ->
  plain (withNameAndPassword (Some (JObj ps)) fullName pass) = true.
Proof.
  unfold withNameAndPassword. cbn [plain Js.ownProps].
  rewrite !andb_true_iff. intros [Hd Hf]. split.
  - now apply distinct_setProp, distinct_setProp.
  - apply forallb_setProp; [reflexivity|]. now apply forallb_setProp.
Qed.


Lemma forallb_insert (P : JSON -> bool) (l : list JSON) (i : nat) (x : JSON) :
  forallb P l = true -> P x = true -> forallb P (<[i := x]> l) = true.
Proof.
  intros Hl Hx. revert i. induction l as [|y l IH]; intros i; simpl; [reflexivity|].
  simpl in Hl. apply andb_true_iff in Hl as [Hy Hl].
  destruct i as [|i]; simpl.
  - now rewrite Hx, Hl.
  - now rewrite Hy, IH.
Qed.

Lemma forallb_lookup (P : JSON -> bool) (l : list JSON) (i : nat) (x : JSON) :
  forallb P l = true -> l !! i = Some x -> P x = true.
Proof.
  revert i. induction l as [|y l IH]; intros i Hl; [discriminate|].
  simpl in Hl. apply andb_true_iff in Hl as [Hy Hl].
  destruct i as [|i]; simpl.
  - now intros [= <-].
  - now apply IH.
Qed.

(** The callback of the save on an element that is not [null]. *)
Lemma sessionEmailIs_hasEmail (session u : JSON) (e : string) :
  u <> JNull -> Js.get session "email" = Normal (Some (JStr e)) ->
  sessionEmailIs session u = Normal (hasEmail e u).
Proof.
  intros Hu Hs. unfold sessionEmailIs, hasEmail. rewrite Hs.
  destruct u; simpl; try reflexivity. now contradiction Hu.
Qed.

Lemma findIndexFrom_at (f : JSON -> completion bool) (l : list JSON) (i : nat) (u : JSON)
    (k : Z) :
  l !! i = Some u -> f u = Normal true ->
  (forall j uj, j < i -> l !! j = Some uj -> f uj = Normal false) ->
  Js.findIndexFrom k f l = Normal (k + Z.of_nat i)%Z.
Proof.
  revert i k. induction l as [|x l IH]; intros i k Hi Hu Hbefore; [discriminate|].
  destruct i as [|i]; simpl in *.
  - inversion Hi; subst. rewrite Hu. simpl. f_equal. lia.
  - rewrite (Hbefore 0 x) by (lia || reflexivity). simpl.
    rewrite (IH i (k + 1)%Z Hi Hu).
    + f_equal. lia.
    + intros j uj Hj Hl. apply (Hbefore (S j)); [lia | exact Hl].
Qed.

(** C5, amended: for every stored list, when the record at place [i] is the
    first whose email is the session's email and no element before it is
    [null], saving a name and a password that pass their rules shows success
    and writes the list read with, in that record, the name and the password
    replaced by their trimmed values and nothing else changed: every other
    property of the record, its email among them, every other element, and
    the length and order of the list are as they were read. The users record
    of the store becomes the text of that list, no other record of the store
    changes, and [readUsers] then returns that list whenever it survives a
    write and a read. *)
Theorem save_overwrites_name_and_password (session : JSON) (name password e : string)
    (st : state) (users : list JSON) (i : nat) (u : JSON) :
  readUsers st = Normal users ->
  Js.get session "email" = Normal (Some (JStr e)) ->
  users !! i = Some u -> hasEmail e u = true ->
  (forall j uj, j < i -> users !! j = Some uj -> hasEmail e uj = false /\ uj <> JNull) ->
  2 <= String.length (safeTrim name) -> 4 <= String.length (safeTrim password) ->
  let r := AccountPage_handleSave session name password st in
  exists (u' : JSON) (users' : list JSON),
    fst r = ShowSuccess "Account updated." /\
    getItem STORAGE_KEYS.users (snd r) = Some (JSON_stringify (JArr users')) /\
    (readsBack (JArr users') -> readUsers (snd r) = Normal users') /\
    users' !! i = Some u' /\
    Js.get u' "name" = Normal (Some (JStr (safeTrim name))) /\
    Js.get u' "password" = Normal (Some (JStr (safeTrim password))) /\
    (forall k, k <> "name" -> k <> "password" ->
       Js.assoc k (Js.ownProps u') = Js.assoc k (Js.ownProps u)) /\
    Js.get u' "email" = Normal (Some (JStr e)) /\
    (forall n p, u = newUser n e p -> u' = newUser (safeTrim name) e (safeTrim password)) /\
    length users' = length users /\
    (forall j, j <> i -> users' !! j = users !! j) /\
    (forall k, k <> STORAGE_KEYS.users -> getItem k (snd r) = getItem k st) /\
    readSession (snd r) = readSession st /\
    appSession (snd r) = appSession st /\
    hash (snd r) = hash st.
Proof.
  intros Hr Hs Hi Hg Hfirst Hn Hp r.
  assert (Hidx : Js.findIndexFrom 0 (sessionEmailIs session) users = Normal (0 + Z.of_nat i)%Z).
  { apply (findIndexFrom_at _ _ _ u); [exact Hi| |].
    - rewrite (sessionEmailIs_hasEmail session u e); [now rewrite Hg| |exact Hs].
      intros ->. discriminate Hg.
    - intros j uj Hj Hl. destruct (Hfirst j uj Hj Hl) as [Hno Hnn].
      now rewrite (sessionEmailIs_hasEmail session uj e Hnn Hs), Hno. }
  destruct u as [| | | | |ps]; try discriminate.
  set (u' := withNameAndPassword (Some (JObj ps)) (safeTrim name) (safeTrim password)).
  assert (Hr_eq : r = (ShowSuccess "Account updated.", writeUsers (<[i := u']> users) st)).
  { subst r. unfold AccountPage_handleSave.
    destruct (Nat.ltb_spec (String.length (safeTrim name)) 2) as [|_]; [lia|].
    destruct (Nat.ltb_spec (String.length (safeTrim password)) 4) as [|_]; [lia|].
    rewrite Hr. unfold bind, Js.findIndex. rewrite Hidx.
    destruct (Z.eqb_spec (0 + Z.of_nat i) (-1)) as [|_]; [lia|].
    rewrite Z.add_0_l, Nat2Z.id, Hi. reflexivity. }
  assert (Hlt : i < length users) by (eapply lookup_lt_Some; exact Hi).
  assert (Hemail : Js.assoc "email" ps = Some (JStr e)).
  { unfold hasEmail in Hg. simpl in Hg. destruct (Js.assoc "email" ps) as [[]|];
      try discriminate. apply String.eqb_eq in Hg. now subst. }
  exists u', (<[i := u']> users). rewrite Hr_eq. simpl.
  split; [reflexivity|]. split; [apply getItem_writeUsers|].
  split; [apply readUsers_writeUsers_back|].
  split; [now apply list_lookup_insert_eq|].
  split. { unfold u', withNameAndPassword. simpl. f_equal.
           rewrite assoc_setProp_ne by discriminate. apply assoc_setProp. }
  split. { unfold u', withNameAndPassword. simpl. f_equal. apply assoc_setProp. }
  split. { intros k Hk1 Hk2. unfold u', withNameAndPassword. simpl.
           rewrite assoc_setProp_ne by congruence. now apply assoc_setProp_ne. }
  split. { unfold u', withNameAndPassword. simpl. f_equal.
           rewrite !assoc_setProp_ne by discriminate. exact Hemail. }
  split. { intros n p Hu. inversion Hu; subst. reflexivity. }
  split; [apply length_insert|].
  split; [intros j Hj; now apply list_lookup_insert_ne|].
  split; [intros k Hk; apply getItem_setItem_ne; congruence|].
  split; [apply readSession_writeUsers|]. split; reflexivity.
Qed.


(** ** The round trip *)

Lemma setItem_same (k v : string) (st : state) :
  getItem k st = Some v -> setItem k v st = st.
Proof.
  unfold getItem, setItem. intros H. destruct st as [ls s h]. simpl in *.
  f_equal. now apply insert_id.
Qed.



(** ** The stored records are normalized *)

Lemma normalized_newUser (n e p : string) :
  trim n = n -> 2 <= String.length n -> trim p = p -> 4 <= String.length p ->
  toLowerCase (trim e) = e ->
  normalized (newUser n e p) = true.
Proof.
  intros Hn Hln Hp Hlp He. unfold normalized, newUser.
  rewrite Hn, Hp, He, !String.eqb_refl.
  apply Nat.leb_le in Hln, Hlp. now rewrite Hln, Hlp.
Qed.

Lemma normalized_inv (u : JSON) :
  normalized u = true ->
  exists n e p, u = newUser n e p /\ trim n = n /\ 2 <= String.length n /\
    trim p = p /\ 4 <= String.length p /\ toLowerCase (trim e) = e.
Proof.
  destruct u as [| | | | |ps]; try discriminate.
  destruct ps as [|[k1 [| | |n| |]] [|[k2 [| | |e| |]] [|[k3 [| | |p| |]] [|]]]];
    try discriminate.
  unfold normalized. rewrite !andb_true_iff.
  intros [[[[[[[H1 H2] H3] H4] H5] H6] H7] H8].
  apply String.eqb_eq in H1, H2, H3, H4, H6, H8. subst k1 k2 k3.
  apply Nat.leb_le in H5, H7.
  exists n, e, p. repeat split; auto.
Qed.

Lemma normalized_plain_object (u : JSON) :
  normalized u = true -> isObject u && plain u = true.
Proof.
  intros H. destruct (normalized_inv u H) as (n & e & p & -> & _). reflexivity.
Qed.

Lemma forallb_normalized_plain (l : list JSON) :
  forallb normalized l = true -> forallb plain l = true.
Proof.
  induction l as [|u l IH]; simpl; [reflexivity|].
  rewrite andb_true_iff. intros [Hu Hl].
  apply normalized_plain_object, andb_true_iff in Hu as [_ Hu]. now rewrite Hu, IH.
Qed.

Lemma lower_trim_normal (email : string) :
  toLowerCase (trim (toLowerCase (safeTrim email))) = toLowerCase (safeTrim email).
Proof.
  rewrite safeTrim_trim, trim_toLowerCase, trim_idem. apply toLowerCase_idem.
Qed.

Lemma safeTrim_normal (s : string) : trim (safeTrim s) = safeTrim s.
Proof. rewrite safeTrim_trim. apply trim_idem. Qed.

Lemma findIndexFrom_range (f : JSON -> completion bool) (l : list JSON) (i idx : Z) :
  Js.findIndexFrom i f l = Normal idx ->
  idx = (-1)%Z \/ exists (k : nat) (u : JSON), idx = (i + Z.of_nat k)%Z /\ l !! k = Some u.
Proof.
  revert i. induction l as [|u l IH]; intros i; simpl.
  - intros [= <-]. now left.
  - destruct (f u) as [[]|]; simpl; try discriminate.
    + intros [= <-]. right. exists 0, u. split; [lia | reflexivity].
    + intros H. destruct (IH _ H) as [->|(k & u' & -> & Hk)]; [now left|].
      right. exists (S k), u'. split; [lia | exact Hk].
Qed.

(** What a successful save did. *)
Lemma Save_success_inv (session : JSON) (name password msg : string) (st st' : state)
    (users : list JSON) :
  readUsers st = Normal users ->
  AccountPage_handleSave session name password st = (ShowSuccess msg, st') ->
  2 <= String.length (safeTrim name) /\ 4 <= String.length (safeTrim password) /\
  exists (i : nat) (u : JSON),
    users !! i = Some u /\
    st' = writeUsers
            (<[i := withNameAndPassword (Some u) (safeTrim name) (safeTrim password)]> users) st.
Proof.
  intros Hr. unfold AccountPage_handleSave. rewrite Hr.
  destruct (Nat.ltb_spec (String.length (safeTrim name)) 2) as [Hlt|Hn];
    [intros H; discriminate H|].
  destruct (Nat.ltb_spec (String.length (safeTrim password)) 4) as [Hlt|Hp];
    [intros H; discriminate H|].
  unfold bind, Js.findIndex.
  destruct (Js.findIndexFrom 0 (sessionEmailIs session) users) as [idx|] eqn:Hidx;
    [|intros H; discriminate H].
  destruct (findIndexFrom_range _ _ _ _ Hidx) as [->|(k & u & -> & Hk)].
  - intros H; discriminate H.
  - destruct (Z.eqb_spec (0 + Z.of_nat k) (-1)) as [|_]; [lia|].
    rewrite Z.add_0_l, Nat2Z.id, Hk. intros H. inversion H; subst.
    split; [exact Hn|]. split; [exact Hp|]. now exists k, u.
Qed.

Lemma handlers_keep_users_unless_written :
  (forall email password st, readUsers (snd (Login email password st)) = readUsers st) /\
  (forall st, readUsers (App_handleLogout st) = readUsers st).
Proof.
  split.
  - intros email password st. unfold Login.
    destruct (LoginPage_handleSubmit email password) as [msg|[eMail pass]]; [reflexivity|].
    unfold LoginPage_onTimeout.
    destruct (do users <- readUsers st ;; Js.find (credentialsMatch eMail pass) users)
      as [[user|]|]; try reflexivity.
    destruct (Js.get user "email") as [e|] eqn:E; [|reflexivity].
    unfold App_handleLogin. rewrite E. simpl. apply readUsers_writeSession.
  - intros st. unfold App_handleLogout. apply (readUsers_writeSession JNull).
Qed.


Lemma Register_writes_only_on_success (name email password confirm : string) (st : state) :
  (exists msg, fst (RegisterPage_handleSubmit name email password confirm st) = ShowSuccess msg)
  \/ snd (RegisterPage_handleSubmit name email password confirm st) = st.
Proof.
  unfold RegisterPage_handleSubmit.
  destruct (String.length (safeTrim name) <? 2)%nat; [now right|].
  destruct (negb (validateEmail (JStr (toLowerCase (safeTrim email))))); [now right|].
  destruct (String.length (safeTrim password) <? 4)%nat; [now right|].
  destruct (negb (String.eqb (safeTrim password) (safeTrim confirm))); [now right|].
  destruct (do users <- readUsers st ;;
            do taken <- Js.some (emailIs (toLowerCase (safeTrim email))) users ;;
            Normal (users, taken)) as [[users []]|]; simpl; eauto.
Qed.

Lemma Save_writes_only_on_success (session : JSON) (name password : string) (st : state) :
  (exists msg, fst (AccountPage_handleSave session name password st) = ShowSuccess msg)
  \/ snd (AccountPage_handleSave session name password st) = st.
Proof.
  unfold AccountPage_handleSave.
  destruct (String.length (safeTrim name) <? 2)%nat; [now right|].
  destruct (String.length (safeTrim password) <? 4)%nat; [now right|].
  destruct (do users <- readUsers st ;;
            do idx <- Js.findIndex (sessionEmailIs session) users ;;
            Normal (users, idx)) as [[users idx]|]; simpl; [|now right].
  destruct (idx =? -1)%Z; simpl; eauto.
Qed.

Lemma normalized_withNameAndPassword (u : JSON) (name password : string) :
  normalized u = true ->
  2 <= String.length (safeTrim name) -> 4 <= String.length (safeTrim password) ->
  normalized (withNameAndPassword (Some u) (safeTrim name) (safeTrim password)) = true.
Proof.
  intros Hu Hn Hp. destruct (normalized_inv u Hu) as (n & e & p & -> & _ & _ & _ & _ & He).
  change (withNameAndPassword (Some (newUser n e p)) (safeTrim name) (safeTrim password))
    with (newUser (safeTrim name) e (safeTrim password)).
  apply normalized_newUser; auto using safeTrim_normal.
Qed.

(** C10, amended: a record written by a registration is normalized: its name
    is trimmed and at least 2 long, its password trimmed and at least 4
    long, its email trimmed and lower-case. A successful profile save writes
    a record whose name and password are trimmed and long enough and whose
    email is the email of the record it replaces, so the record written is
    normalized when the stored one is, as it is in every store the app has
    populated. Hence in every store populated, starting from no users
    record, through registrations, saves, logins and logouts, every stored
    record is normalized. *)
Theorem stored_records_normalized :
  (forall (name email password confirm msg : string) (st st' : state) (users : list JSON),
     readUsers st = Normal users ->
     RegisterPage_handleSubmit name email password confirm st = (ShowSuccess msg, st') ->
     exists u, st' = writeUsers (users ++ [u]) st /\
       getItem STORAGE_KEYS.users st' = Some (JSON_stringify (JArr (users ++ [u]))) /\
       normalized u = true) /\
  (forall (session : JSON) (name password msg : string) (st st' : state) (users : list JSON),
     readUsers st = Normal users ->
     AccountPage_handleSave session name password st = (ShowSuccess msg, st') ->
     exists (i : nat) (u u' : JSON) (n p : string),
       users !! i = Some u /\ st' = writeUsers (<[i := u']> users) st /\
       getItem STORAGE_KEYS.users st' = Some (JSON_stringify (JArr (<[i := u']> users))) /\
       Js.get u' "name" = Normal (Some (JStr n)) /\ trim n = n /\ 2 <= String.length n /\
       Js.get u' "password" = Normal (Some (JStr p)) /\ trim p = p /\ 4 <= String.length p /\
       Js.assoc "email" (Js.ownProps u') = Js.assoc "email" (Js.ownProps u) /\
       (normalized u = true -> normalized u' = true) /\
       (populated st -> normalized u' = true)) /\
  (forall st : state,
     populated st ->
     exists users, readUsers st = Normal users /\ forallb normalized users = true).
Proof.
  assert (Hinv : forall st : state, populated st ->
            exists users, readUsers st = Normal users /\ forallb normalized users = true).
  { intros st Hpop. induction Hpop as
      [st Hfresh
      |st name email password confirm _ (users & Hr & Hall)
      |st session name password _ (users & Hr & Hall)
      |st email password _ (users & Hr & Hall)
      |st _ (users & Hr & Hall)].
    - exists []. unfold readUsers. now rewrite Hfresh.
    - destruct (Register_writes_only_on_success name email password confirm st)
        as [[msg Hs]|Hsame]; [|rewrite Hsame; eauto].
      destruct (RegisterPage_handleSubmit name email password confirm st) as [o st'] eqn:E.
      simpl in Hs. subst o.
      destruct (Register_success_inv _ _ _ _ _ _ _ _ Hr E)
        as (Hn & Hve & Hp & Hc & Hnew & ->).
      eexists. simpl. split.
      + apply readUsers_writeUsers, forallb_plain_snoc, forallb_normalized_plain, Hall.
      + rewrite forallb_app, Hall. simpl. rewrite andb_true_r.
        apply normalized_newUser; auto using safeTrim_normal, lower_trim_normal.
    - destruct (Save_writes_only_on_success session name password st)
        as [[msg Hs]|Hsame]; [|rewrite Hsame; eauto].
      destruct (AccountPage_handleSave session name password st) as [o st'] eqn:E.
      simpl in Hs. subst o.
      destruct (Save_success_inv _ _ _ _ _ _ _ Hr E) as (Hn & Hp & i & u & Hi & ->).
      assert (Hu' : normalized (withNameAndPassword (Some u) (safeTrim name) (safeTrim password))
                    = true).
      { apply normalized_withNameAndPassword; auto.
        exact (forallb_lookup _ _ _ _ Hall Hi). }
      eexists. simpl. split.
      + apply readUsers_writeUsers, forallb_normalized_plain, forallb_insert; eauto.
      + now apply forallb_insert.
    - exists users. split; [|exact Hall].
      rewrite <- Hr. apply handlers_keep_users_unless_written.
    - exists users. split; [|exact Hall].
      rewrite <- Hr. apply handlers_keep_users_unless_written. }
  split; [|split; [|exact Hinv]].
  - intros name email password confirm msg st st' users Hr Hreg.
    destruct (Register_success_inv _ _ _ _ _ _ _ _ Hr Hreg)
      as (Hn & Hve & Hp & Hc & Hnew & ->).
    eexists. split; [reflexivity|]. split; [apply getItem_writeUsers|].
    apply normalized_newUser; auto using safeTrim_normal, lower_trim_normal.
  - intros session name password msg st st' users Hr Hsave.
    destruct (Save_success_inv _ _ _ _ _ _ _ Hr Hsave) as (Hn & Hp & i & u & Hi & ->).
    exists i, u, (withNameAndPassword (Some u) (safeTrim name) (safeTrim password)),
      (safeTrim name), (safeTrim password).
    split; [exact Hi|]. split; [reflexivity|]. split; [apply getItem_writeUsers|].
    split. { unfold withNameAndPassword. simpl. f_equal.
             rewrite assoc_setProp_ne by discriminate. apply assoc_setProp. }
    split; [apply safeTrim_normal|]. split; [exact Hn|].
    split. { unfold withNameAndPassword. simpl. f_equal. apply assoc_setProp. }
    split; [apply safeTrim_normal|]. split; [exact Hp|].
    split. { unfold withNameAndPassword. simpl.
             now rewrite !assoc_setProp_ne by discriminate. }
    split; [intros Hu; now apply normalized_withNameAndPassword|].
    intros Hpop. destruct (Hinv st Hpop) as (users0 & Hr0 & Hall).
    rewrite Hr in Hr0. inversion Hr0; subst users0.
    apply normalized_withNameAndPassword; auto.
    exact (forallb_lookup _ _ _ _ Hall Hi).
Qed.


(** ** Logging out *)

Lemma getItem_removeItem (k : string) (st : state) : getItem k (removeItem k st) = None.
Proof. unfold getItem, removeItem. simpl. apply lookup_delete_eq. Qed.

(** X1: whatever the state, after [handleLogout] the session record is gone
    from the store, [readSession] returns null, the App holds no session, the
    route is the login route and App shows the login page; the Account page,
    were it shown, would show the fallback; no other record of the store is
    touched. *)
Theorem logout_clears_session (st : state) :
  let st' := App_handleLogout st in
  getItem STORAGE_KEYS.session st' = None /\
  readSession st' = Normal JNull /\
  appSession st' = JNull /\
  hash st' = ROUTES.login /\
  App_page st' = LoginPageView /\
  AccountPage_render (appSession st') st' = Normal MustLogIn /\
  (forall k, k <> STORAGE_KEYS.session -> getItem k st' = getItem k st).
Proof.
  intros st'. subst st'. unfold App_handleLogout, writeSession. simpl.
  assert (Hs : getItem STORAGE_KEYS.session
                 (navigate ROUTES.login (setSession JNull (removeItem STORAGE_KEYS.session st)))
               = None) by apply (getItem_removeItem STORAGE_KEYS.session st).
  split; [exact Hs|]. split; [unfold readSession; now rewrite Hs|].
  split; [reflexivity|]. split; [reflexivity|]. split; [reflexivity|]. split.
  - unfold AccountPage_render, AccountPage_profile.
    destruct (readUsers_returns
                (navigate ROUTES.login (setSession JNull (removeItem STORAGE_KEYS.session st))))
      as [l Hl].
    rewrite Hl. reflexivity.
  - intros k Hk. apply (getItem_removeItem_ne STORAGE_KEYS.session k st). congruence.
Qed.

(** ** What each handler leaves alone *)

Lemma getItem_writeSession_ne (s : JSON) (k : string) (st : state) :
  k <> STORAGE_KEYS.session -> getItem k (writeSession s st) = getItem k st.
Proof.
  intros Hk. unfold writeSession. destruct (negb (Js.truthy s)).
  - apply getItem_removeItem_ne. congruence.
  - apply getItem_setItem_ne. congruence.
Qed.

Lemma Login_keeps_other_records (email password : string) (st : state) (k : string) :
  k <> STORAGE_KEYS.session ->
  getItem k (snd (Login email password st)) = getItem k st.
Proof.
  intros Hk. unfold Login.
  destruct (LoginPage_handleSubmit email password) as [msg|[eMail pass]]; [reflexivity|].
  unfold LoginPage_onTimeout.
  destruct (do users <- readUsers st ;; Js.find (credentialsMatch eMail pass) users)
    as [[user|]|]; try reflexivity.
  destruct (Js.get user "email") as [e|] eqn:E; [|reflexivity].
  unfold App_handleLogin. rewrite E. simpl.
  now apply (getItem_writeSession_ne (sessionOf e) k st).
Qed.

Lemma Submit_writes_only_on_success (session profile : JSON) (st : state) :
  (exists users i u,
     snd (AccountPage_submit session profile st) = writeUsers (<[i := u]> users) st)
  \/ snd (AccountPage_submit session profile st) = st.
Proof.
  unfold AccountPage_submit.
  destruct (do n <- Js.get profile "name" ;; do fullName <- safeTrimValue n ;;
            do p <- Js.get profile "password" ;; do pass <- safeTrimValue p ;;
            Normal (fullName, pass)) as [[fullName pass]|]; [|now right].
  destruct (String.length fullName <? 2)%nat; [now right|].
  destruct (String.length pass <? 4)%nat; [now right|].
  destruct (do users <- readUsers st ;;
            do idx <- Js.findIndex (sessionEmailIs session) users ;;
            Normal (users, idx)) as [[users idx]|]; [|now right].
  destruct (idx =? -1)%Z; [now right|]. left. simpl. eauto.
Qed.

(** X2: a login, whatever its outcome, changes no record of the store other
    than the session record, so never the users record; a registration and a
    profile save, whatever their outcome, change no record other than the
    users record, and neither the App's session nor the route. *)
Theorem handlers_touch_only_their_record :
  (forall (email password : string) (st : state) (k : string),
     k <> STORAGE_KEYS.session ->
     getItem k (snd (Login email password st)) = getItem k st) /\
  (forall (name email password confirm : string) (st : state),
     let st' := snd (RegisterPage_handleSubmit name email password confirm st) in
     (forall k, k <> STORAGE_KEYS.users -> getItem k st' = getItem k st) /\
     appSession st' = appSession st /\ hash st' = hash st) /\
  (forall (session profile : JSON) (st : state),
     let st' := snd (AccountPage_submit session profile st) in
     (forall k, k <> STORAGE_KEYS.users -> getItem k st' = getItem k st) /\
     appSession st' = appSession st /\ hash st' = hash st).
Proof.
  split; [|split].
  - intros email password st k Hk. now apply Login_keeps_other_records.
  - intros name email password confirm st st'. subst st'.
    destruct (Register_writes_only_on_success name email password confirm st)
      as [[msg Hs]|Hsame]; [|rewrite Hsame; repeat split; reflexivity].
    destruct (RegisterPage_handleSubmit name email password confirm st) as [o st'] eqn:E.
    simpl in Hs. subst o. destruct (readUsers_returns st) as [users Hr].
    unfold RegisterPage_handleSubmit in E. rewrite Hr in E.
    destruct (String.length (safeTrim name) <? 2)%nat; [discriminate E|].
    destruct (negb (validateEmail (JStr (toLowerCase (safeTrim email))))); [discriminate E|].
    destruct (String.length (safeTrim password) <? 4)%nat; [discriminate E|].
    destruct (negb (String.eqb (safeTrim password) (safeTrim confirm))); [discriminate E|].
    unfold bind in E.
    destruct (Js.some (emailIs (toLowerCase (safeTrim email))) users) as [[]|];
      try discriminate E.
    inversion E; subst. simpl. split; [|split; reflexivity].
    intros k Hk. apply getItem_setItem_ne. congruence.
  - intros session profile st st'. subst st'.
    destruct (Submit_writes_only_on_success session profile st)
      as [(users & i & u & ->) | ->]; [|repeat split; reflexivity].
    split; [|split; reflexivity].
    intros k Hk. apply getItem_setItem_ne. congruence.
Qed.

(** ** Logging in twice *)

(** X3: a login is idempotent: submitting the same email and password again
    right after gives the same outcome and leaves the state as the first
    login left it. *)
Theorem login_twice (email password : string) (st : state) :
  Login email password (snd (Login email password st)) = Login email password st.
Proof.
  unfold Login.
  destruct (LoginPage_handleSubmit email password) as [msg|[eMail pass]]; [reflexivity|].
  unfold LoginPage_onTimeout at 2.
  destruct (do users <- readUsers st ;; Js.find (credentialsMatch eMail pass) users)
    as [[user|]|] eqn:F; simpl.
  - destruct (Js.get user "email") as [e|] eqn:E.
    + unfold App_handleLogin. rewrite E. simpl.
      unfold LoginPage_onTimeout.
      rewrite (readUsers_writeSession (sessionOf e) st : readUsers
                 (navigate ROUTES.account
                    (setSession (sessionOf e) (writeSession (sessionOf e) st)))
               = readUsers st).
      rewrite F, E. unfold App_handleLogin. rewrite E. simpl. f_equal.
      unfold writeSession. destruct e as [e|]; simpl.
      * destruct st as [ls s h]. unfold navigate, setSession, setItem. simpl. f_equal.
        apply insert_insert_eq.
      * destruct st as [ls s h]. unfold navigate, setSession, setItem. simpl. f_equal.
        apply insert_insert_eq.
    + simpl. unfold LoginPage_onTimeout. now rewrite F, E.
  - unfold LoginPage_onTimeout. now rewrite F.
  - unfold LoginPage_onTimeout. now rewrite F.
Qed.


(** ** The router *)

(** X4: the redirect effect keeps a logged-in user off the login and
    register pages: when the App holds a session, the page shown after the
    effect is neither of them; when it holds none, the effect does nothing.
    The effect never touches the store or the session, and running it again
    changes nothing. *)
Theorem redirect_off_auth_pages (st : state) :
  (Js.truthy (appSession st) = true ->
     App_page (App_redirect st) <> LoginPageView /\
     App_page (App_redirect st) <> RegisterPageView) /\
  (Js.truthy (appSession st) = false -> App_redirect st = st) /\
  App_redirect (App_redirect st) = App_redirect st /\
  localStorage (App_redirect st) = localStorage st /\
  appSession (App_redirect st) = appSession st.
Proof.
  unfold App_redirect, App_page.
  destruct (Js.truthy (appSession st)) eqn:T; simpl.
  - destruct (String.eqb (useHashRoute st) ROUTES.login) eqn:L; simpl.
    + rewrite T. repeat split; try discriminate; reflexivity.
    + destruct (String.eqb (useHashRoute st) ROUTES.register) eqn:R; simpl.
      * rewrite T. repeat split; try discriminate; reflexivity.
      * rewrite T, L, R. simpl.
        repeat split; try discriminate; try reflexivity;
          destruct (String.eqb (useHashRoute st) ROUTES.account); discriminate.
  - rewrite T. simpl. repeat split; try discriminate; reflexivity.
Qed.

(** X5: mounting the App with an empty location hash sets the hash to the
    login route; with any other hash it changes nothing. Either way the hash
    is not empty afterwards, and the route the hook returns and the page App
    shows are the same before and after the mount effect. *)
Theorem mount_defaults_to_login (st : state) :
  let st' := useHashRoute_onMount st in
  hash st' <> EmptyString /\
  useHashRoute st' = useHashRoute st /\
  App_page st' = App_page st /\
  (hash st = EmptyString -> hash st' = ROUTES.login /\ App_page st' = LoginPageView) /\
  (hash st <> EmptyString -> st' = st).
Proof.
  intros st'. subst st'. unfold useHashRoute_onMount, App_page, useHashRoute.
  destruct (String.eqb_spec (hash st) EmptyString) as [E|E]; simpl.
  - split; [discriminate|]. split; [reflexivity|]. split; [reflexivity|].
    split; [intros _; split; reflexivity|]. intros Hne. contradiction.
  - destruct (String.eqb_spec (hash st) EmptyString) as [E'|_]; [contradiction|].
    split; [exact E|]. split; [reflexivity|]. split; [reflexivity|].
    split; [intros E'; contradiction|]. reflexivity.
Qed.

(** ** The email rule and normalization *)

Lemma includes_cons (c d : ascii) (s : string) :
  includes (String d s) (String c EmptyString)
  = Ascii.eqb c d || includes s (String c EmptyString).
Proof.
  cbn [includes String.prefix]. destruct (ascii_dec c d) as [->|Hne].
  - rewrite Ascii.eqb_refl. now destruct s.
  - apply Ascii.eqb_neq in Hne. now rewrite Hne.
Qed.

Lemma includes_nil (c : ascii) : includes EmptyString (String c EmptyString) = false.
Proof. reflexivity. Qed.

Lemma eqb_whiteSpace (c d : ascii) :
  isWhiteSpace c = false -> isWhiteSpace d = true -> Ascii.eqb c d = false.
Proof. intros Hc Hd. apply Ascii.eqb_neq. intros ->. congruence. Qed.

Lemma includes_trimStart (c : ascii) (s : string) :
  isWhiteSpace c = false ->
  includes (trimStart s) (String c EmptyString) = includes s (String c EmptyString).
Proof.
  intros Hc. induction s as [|d s IH]; [reflexivity|].
  cbn [trimStart]. destruct (isWhiteSpace d) eqn:W; [|reflexivity].
  now rewrite includes_cons, (eqb_whiteSpace c d Hc W), IH.
Qed.

Lemma includes_trimEnd (c : ascii) (s : string) :
  isWhiteSpace c = false ->
  includes (trimEnd s) (String c EmptyString) = includes s (String c EmptyString).
Proof.
  intros Hc. induction s as [|d s IH]; [reflexivity|].
  cbn [trimEnd]. rewrite includes_cons, <- IH.
  destruct (trimEnd s) as [|a t].
  - destruct (isWhiteSpace d) eqn:W.
    + now rewrite (eqb_whiteSpace c d Hc W).
    + now rewrite includes_cons.
  - now rewrite includes_cons.
Qed.

Lemma includes_toLowerCase (c : ascii) (s : string) :
  (forall d, Ascii.eqb c (lowerChar d) = Ascii.eqb c d) ->
  includes (toLowerCase s) (String c EmptyString) = includes s (String c EmptyString).
Proof.
  intros Hc. induction s as [|d s IH]; [reflexivity|].
  cbn [toLowerCase]. now rewrite !includes_cons, Hc, IH.
Qed.

Lemma at_lowerChar (d : ascii) : Ascii.eqb "@" (lowerChar d) = Ascii.eqb "@" d.
Proof. destruct d as [[] [] [] [] [] [] [] []]; reflexivity. Qed.

Lemma dot_lowerChar (d : ascii) : Ascii.eqb "." (lowerChar d) = Ascii.eqb "." d.
Proof. destruct d as [[] [] [] [] [] [] [] []]; reflexivity. Qed.

(** X6: trimming and lower-casing never change what the email rule answers:
    the normalized email the Login and Register handlers test passes
    [validateEmail] exactly when the text typed does. *)
Theorem validateEmail_ignores_normalization (email : string) :
  validateEmail (JStr (toLowerCase (safeTrim email))) = validateEmail (JStr email).
Proof.
  unfold validateEmail. rewrite safeTrim_trim. unfold trim.
  rewrite (includes_toLowerCase "@"), (includes_toLowerCase ".")
    by (apply at_lowerChar || apply dot_lowerChar).
  now rewrite !includes_trimEnd, !includes_trimStart by reflexivity.
Qed.

(** ** [safeTrim] *)

Lemma safeTrimValue_string (s : string) : safeTrimValue (Some (JStr s)) = Normal (safeTrim s).
Proof. unfold safeTrimValue, safeTrim. now destruct s. Qed.

(** X7: [safeTrim] of a string is the trimmed string: it begins and ends
    with no white space, ignores white space added around its argument, and
    applying it again changes nothing. Of a missing value, [null], [false]
    or the empty string it is the empty string, without throwing. *)
Theorem safeTrim_normal_form (s : string) :
  safeTrimValue (Some (JStr s)) = Normal (safeTrim s) /\
  safeTrim (safeTrim s) = safeTrim s /\
  trimStart (safeTrim s) = safeTrim s /\
  trimEnd (safeTrim s) = safeTrim s /\
  (forall w1 w2, allWhiteSpace w1 = true -> allWhiteSpace w2 = true ->
     safeTrim (w1 ++ (s ++ w2)) = safeTrim s) /\
  safeTrimValue None = Normal EmptyString /\
  safeTrimValue (Some JNull) = Normal EmptyString /\
  safeTrimValue (Some (JBool false)) = Normal EmptyString /\
  safeTrimValue (Some (JStr EmptyString)) = Normal EmptyString.
Proof.
  split; [apply safeTrimValue_string|].
  split; [rewrite !safeTrim_trim; apply trim_idem|].
  split. { rewrite safeTrim_trim. unfold trim.
           apply trimStart_noLeadWs, noLeadWs_trimEnd, noLeadWs_trimStart. }
  split. { rewrite safeTrim_trim. unfold trim. apply trimEnd_idem. }
  split. { intros w1 w2 H1 H2. rewrite !safeTrim_trim. now apply trim_padded. }
  repeat split; reflexivity.
Qed.


(** ** The Account page: editing and saving the profile *)

Lemma submit_on_strings (session profile : JSON) (n p : string) (st : state) :
  Js.get profile "name" = Normal (Some (JStr n)) ->
  Js.get profile "password" = Normal (Some (JStr p)) ->
  AccountPage_submit session profile st = AccountPage_handleSave session n p st.
Proof.
  intros Hn Hp. unfold AccountPage_submit, AccountPage_handleSave.
  rewrite Hn. cbn [bind]. rewrite safeTrimValue_string. cbn [bind].
  rewrite Hp. cbn [bind]. rewrite safeTrimValue_string. cbn [bind]. reflexivity.
Qed.

(** X8: [handleField] sets the field it is given to the text typed and
    keeps every other property of the profile. Typing a name and a password
    into the form and saving runs the save on exactly the two texts typed,
    whatever the profile held before. *)
Theorem handleField_then_save (session profile : JSON) (name password : string) (st : state) :
  (forall (field value k : string),
     Js.get (AccountPage_handleField field value profile) k
     = Normal (if String.eqb field k then Some (JStr value)
               else Js.assoc k (Js.ownProps profile))) /\
  AccountPage_submit session
    (AccountPage_handleField "password" password
       (AccountPage_handleField "name" name profile)) st
  = AccountPage_handleSave session name password st.
Proof.
  split.
  - intros field value k. unfold AccountPage_handleField. cbn [Js.get]. f_equal.
    destruct (String.eqb_spec field k) as [->|Hne].
    + apply assoc_setProp.
    + now apply assoc_setProp_ne.
  - apply submit_on_strings; unfold AccountPage_handleField; cbn [Js.get Js.ownProps]; f_equal.
    + rewrite assoc_setProp_ne by discriminate. apply assoc_setProp.
    + apply assoc_setProp.
Qed.

(** X9: a profile whose name is missing, [null], [false] or the empty string
    is refused with the name message and nothing is written: [safeTrim]
    turns the missing name into the empty string. *)
Theorem submit_without_name (session profile : JSON) (n p : jsval) (pass : string)
    (st : state) :
  Js.get profile "name" = Normal n ->
  match n with Some v => Js.truthy v = false | None => True end ->
  Js.get profile "password" = Normal p ->
  safeTrimValue p = Normal pass ->
  AccountPage_submit session profile st
  = (ShowError "Name must be at least 2 characters.", st).
Proof.
  intros Hn Hfalsy Hp Hpass. unfold AccountPage_submit.
  rewrite Hn. cbn [bind].
  assert (Hname : safeTrimValue n = Normal EmptyString).
  { unfold safeTrimValue. destruct n as [v|]; [rewrite Hfalsy|]; reflexivity. }
  rewrite Hname. cbn [bind]. rewrite Hp. cbn [bind]. rewrite Hpass. reflexivity.
Qed.

(** ** The Account page: what it shows *)

Lemma sessionEmailIs_find (session : JSON) (e : string) (users : list JSON) :
  Js.get session "email" = Normal (Some (JStr e)) ->
  forallb isObject users = true ->
  Js.find (sessionEmailIs session) users = Normal (List.find (hasEmail e) users).
Proof.
  intros Hs. induction users as [|u users IH]; simpl; [reflexivity|].
  rewrite andb_true_iff. intros [Hu Hall].
  rewrite (sessionEmailIs_object session u e Hu Hs). cbn [bind].
  destruct (hasEmail e u); [reflexivity | now apply IH].
Qed.

Lemma find_object (P : JSON -> bool) (users : list JSON) (u : JSON) :
  forallb isObject users = true -> List.find P users = Some u -> isObject u = true.
Proof.
  induction users as [|x users IH]; simpl; [discriminate|].
  rewrite andb_true_iff. intros [Hx Hall].
  destruct (P x); [intros [= <-]; exact Hx | now apply IH].
Qed.

Lemma render_first_with_email (session : JSON) (e : string) (users : list JSON)
    (st : state) :
  Js.get session "email" = Normal (Some (JStr e)) ->
  readUsers st = Normal users -> forallb isObject users = true ->
  AccountPage_render session st
  = Normal (match List.find (hasEmail e) users with
            | Some u => ProfileForm u
            | None => MustLogIn
            end).
Proof.
  intros Hs Hr Hobj.
  assert (Ht : Js.truthy session = true) by (destruct session; try discriminate; reflexivity).
  unfold AccountPage_render, AccountPage_profile, AccountPage_view.
  rewrite Hr, Ht. cbn [bind]. rewrite (sessionEmailIs_find session e users Hs Hobj).
  cbn [bind]. destruct (List.find (hasEmail e) users) as [u|] eqn:F; [|reflexivity].
  pose proof (find_object _ _ _ Hobj F) as Hu.
  destruct u; try discriminate. reflexivity.
Qed.

(** X10: the Account page shows the fallback when it is given no session,
    whatever the store holds. Given a session whose email is the string [e]
    and a stored list of objects, it shows the form with a copy of the first
    stored record whose email is [e], and the fallback when no stored record
    has that email. *)
Theorem account_page_guard (session : JSON) (st : state) :
  (Js.truthy session = false -> AccountPage_render session st = Normal MustLogIn) /\
  (forall (e : string) (users : list JSON),
     Js.get session "email" = Normal (Some (JStr e)) ->
     readUsers st = Normal users -> forallb isObject users = true ->
     AccountPage_render session st
     = Normal (match List.find (hasEmail e) users with
               | Some u => ProfileForm u
               | None => MustLogIn
               end)).
Proof.
  split.
  - intros Hf. unfold AccountPage_render, AccountPage_profile, AccountPage_view.
    destruct (readUsers_returns st) as [l Hl]. rewrite Hl, Hf. reflexivity.
  - intros e users Hs Hr Hobj. now apply render_first_with_email.
Qed.


(** ** Stores the app has populated: one record per email *)

Lemma hasEmail_newUser (e n e0 p : string) : hasEmail e (newUser n e0 p) = String.eqb e0 e.
Proof. reflexivity. Qed.

Lemma hasEmail_withNameAndPassword (e : string) (u : JSON) (n' p' : string) :
  normalized u = true ->
  hasEmail e (withNameAndPassword (Some u) n' p') = hasEmail e u.
Proof.
  intros Hu. destruct (normalized_inv u Hu) as (n & e0 & p & -> & _). reflexivity.
Qed.

Lemma uniqueEmails_nil : uniqueEmails [].
Proof. intros i j ui uj e Hi. discriminate Hi. Qed.

Lemma uniqueEmails_snoc (users : list JSON) (n e p : string) :
  uniqueEmails users ->
  Forall (fun u => emailIs e u = Normal false) users ->
  uniqueEmails (users ++ [newUser n e p]).
Proof.
  intros Hu Hfresh i j ui uj e' Hi Hj Hei Hej.
  assert (Hold : forall k uk, k < length users -> (users ++ [newUser n e p]) !! k = Some uk ->
                 hasEmail e' uk = true -> users !! k = Some uk /\ e <> e').
  { intros k uk Hk Hl He. rewrite lookup_app_l in Hl by exact Hk. split; [exact Hl|].
    intros <-. apply list_elem_of_lookup_2 in Hl.
    rewrite Forall_forall in Hfresh. specialize (Hfresh uk Hl).
    apply emailIs_hasEmail in Hfresh. congruence. }
  assert (Hnew : forall k uk, length users <= k -> (users ++ [newUser n e p]) !! k = Some uk ->
                 hasEmail e' uk = true -> k = length users /\ e = e').
  { intros k uk Hk Hl He. rewrite lookup_app_r in Hl by exact Hk.
    destruct (k - length users) as [|d] eqn:D; [|destruct d; discriminate Hl].
    simpl in Hl. inversion Hl; subst uk. rewrite hasEmail_newUser in He.
    apply String.eqb_eq in He. split; [lia | exact He]. }
  destruct (Nat.lt_ge_cases i (length users)) as [Hi'|Hi'];
    destruct (Nat.lt_ge_cases j (length users)) as [Hj'|Hj'].
  - destruct (Hold i ui Hi' Hi Hei) as [Hi0 _]. destruct (Hold j uj Hj' Hj Hej) as [Hj0 _].
    exact (Hu i j ui uj e' Hi0 Hj0 Hei Hej).
  - destruct (Hold i ui Hi' Hi Hei) as [_ Hne]. destruct (Hnew j uj Hj' Hj Hej) as [_ Heq].
    contradiction.
  - destruct (Hold j uj Hj' Hj Hej) as [_ Hne]. destruct (Hnew i ui Hi' Hi Hei) as [_ Heq].
    contradiction.
  - destruct (Hnew i ui Hi' Hi Hei) as [-> _]. destruct (Hnew j uj Hj' Hj Hej) as [-> _].
    reflexivity.
Qed.

Lemma uniqueEmails_insert (users : list JSON) (k : nat) (u u' : JSON) :
  uniqueEmails users -> users !! k = Some u ->
  (forall e, hasEmail e u' = hasEmail e u) ->
  uniqueEmails (<[k := u']> users).
Proof.
  intros Hu Hk Hsame i j ui uj e Hi Hj Hei Hej.
  assert (Hback : forall m um, (<[k := u']> users) !! m = Some um -> hasEmail e um = true ->
                  exists um0, users !! m = Some um0 /\ hasEmail e um0 = true).
  { intros m um Hm He. destruct (Nat.eq_dec k m) as [<-|Hne].
    - rewrite list_lookup_insert_eq in Hm by (eapply lookup_lt_Some; exact Hk).
      inversion Hm; subst um. exists u. split; [exact Hk|]. now rewrite <- Hsame.
    - rewrite list_lookup_insert_ne in Hm by exact Hne. eauto. }
  destruct (Hback i ui Hi Hei) as (ui0 & Hi0 & Hei0).
  destruct (Hback j uj Hj Hej) as (uj0 & Hj0 & Hej0).
  exact (Hu i j ui0 uj0 e Hi0 Hj0 Hei0 Hej0).
Qed.

(** What holds of every store the app has populated. *)
Lemma populated_inv (st : state) :
  populated st ->
  exists users, readUsers st = Normal users /\ forallb normalized users = true /\
    uniqueEmails users /\ usersWritten users st.
Proof.
  intros Hpop. induction Hpop as
    [st Hfresh
    |st name email password confirm _ (users & Hr & Hall & Huniq & Htext)
    |st session name password _ (users & Hr & Hall & Huniq & Htext)
    |st email password _ (users & Hr & Hall & Huniq & Htext)
    |st _ (users & Hr & Hall & Huniq & Htext)].
  - exists []. split; [unfold readUsers; now rewrite Hfresh|].
    split; [reflexivity|]. split; [apply uniqueEmails_nil|]. now left.
  - destruct (Register_writes_only_on_success name email password confirm st)
      as [[msg Hs]|Hsame]; [|rewrite Hsame; eauto 6].
    destruct (RegisterPage_handleSubmit name email password confirm st) as [o st'] eqn:E.
    simpl in Hs. subst o.
    destruct (Register_success_inv _ _ _ _ _ _ _ _ Hr E)
      as (Hn & Hve & Hp & Hc & Hnew & ->).
    eexists. simpl. split; [|split; [|split]].
    + apply readUsers_writeUsers, forallb_plain_snoc, forallb_normalized_plain, Hall.
    + rewrite forallb_app, Hall. simpl. rewrite andb_true_r.
      apply normalized_newUser; auto using safeTrim_normal, lower_trim_normal.
    + now apply uniqueEmails_snoc.
    + right. apply getItem_setItem.
  - destruct (Save_writes_only_on_success session name password st)
      as [[msg Hs]|Hsame]; [|rewrite Hsame; eauto 6].
    destruct (AccountPage_handleSave session name password st) as [o st'] eqn:E.
    simpl in Hs. subst o.
    destruct (Save_success_inv _ _ _ _ _ _ _ Hr E) as (Hn & Hp & i & u & Hi & ->).
    pose proof (forallb_lookup _ _ _ _ Hall Hi) as Hu.
    assert (Hu' : normalized (withNameAndPassword (Some u) (safeTrim name) (safeTrim password))
                  = true) by (apply normalized_withNameAndPassword; auto).
    eexists. simpl. split; [|split; [|split]].
    + apply readUsers_writeUsers, forallb_normalized_plain, forallb_insert; eauto.
    + now apply forallb_insert.
    + apply (uniqueEmails_insert users i u); auto.
      intros e. now apply hasEmail_withNameAndPassword.
    + right. apply getItem_setItem.
  - exists users. split; [|split; [exact Hall|split; [exact Huniq|]]].
    + rewrite <- Hr. apply handlers_keep_users_unless_written.
    + unfold usersWritten. rewrite Login_keeps_other_records by apply keys_differ.
      exact Htext.
  - exists users. split; [|split; [exact Hall|split; [exact Huniq|]]].
    + rewrite <- Hr. apply handlers_keep_users_unless_written.
    + unfold usersWritten, App_handleLogout.
      change (getItem STORAGE_KEYS.users
                (navigate ROUTES.login (setSession JNull (writeSession JNull st))))
        with (getItem STORAGE_KEYS.users (writeSession JNull st)).
      rewrite getItem_writeSession_ne by apply keys_differ. exact Htext.
Qed.

(** X11: in every store the app has populated, starting from no users record
    and through any registrations, saves, logins and logouts, no two stored
    records have the same email. *)
Theorem populated_unique_emails (st : state) :
  populated st ->
  exists users, readUsers st = Normal users /\ uniqueEmails users.
Proof.
  intros Hpop. destruct (populated_inv st Hpop) as (users & Hr & _ & Hu & _). eauto.
Qed.

(** X12: on a store the app has populated and whose users record is present,
    the round trip [writeUsers(readUsers())] changes nothing at all: the
    record already holds the text [writeUsers] writes for the list read. *)
Theorem roundTrip_on_populated (st : state) :
  populated st -> getItem STORAGE_KEYS.users st <> None ->
  roundTrip st = Normal st.
Proof.
  intros Hpop Hpresent. destruct (populated_inv st Hpop) as (users & Hr & _ & _ & Htext).
  unfold roundTrip. rewrite Hr. cbn [bind]. f_equal.
  destruct Htext as [[Hnone _]|Hsome]; [contradiction|].
  now apply setItem_same.
Qed.


(** ** Logging in: what decides the outcome *)

Lemma credentialsMatch_true_inv (e p : string) (u : JSON) :
  credentialsMatch e p u = Normal true ->
  Js.get u "email" = Normal (Some (JStr e)) /\
  Js.get u "password" = Normal (Some (JStr p)) /\
  hasEmail e u = true.
Proof.
  unfold credentialsMatch, hasEmail.
  destruct (Js.get u "email") as [[[| | |x| |]|]|]; cbn [bind Js.strict_eq]; try discriminate.
  destruct (String.eqb_spec x e) as [->|]; [|discriminate].
  destruct (Js.get u "password") as [[[| | |y| |]|]|]; cbn [bind Js.strict_eq];
    try discriminate.
  destruct (String.eqb_spec y p) as [->|]; [|discriminate].
  intros _. split; [reflexivity|]. split; reflexivity.
Qed.

Lemma credentialsMatch_newUser_eq (e p n e0 p0 : string) :
  credentialsMatch e p (newUser n e0 p0) = Normal (String.eqb e0 e && String.eqb p0 p).
Proof.
  unfold credentialsMatch, newUser. cbn [Js.get Js.assoc String.eqb Ascii.eqb Bool.eqb bind Js.strict_eq].
  destruct (String.eqb e0 e); reflexivity.
Qed.

Lemma find_app_some (f : JSON -> completion bool) (l1 l2 : list JSON) (u : JSON) :
  Js.find f l1 = Normal (Some u) -> Js.find f (l1 ++ l2) = Normal (Some u).
Proof.
  induction l1 as [|x l1 IH]; simpl; [discriminate|].
  destruct (f x) as [[]|]; simpl; try discriminate; [trivial | exact IH].
Qed.

Lemma find_some_inv (f : JSON -> completion bool) (l : list JSON) (u : JSON) :
  Js.find f l = Normal (Some u) ->
  exists i, l !! i = Some u /\ f u = Normal true.
Proof.
  induction l as [|x l IH]; simpl; [discriminate|].
  destruct (f x) as [[]|] eqn:E; simpl; try discriminate.
  - intros [= <-]. now exists 0.
  - intros H. destruct (IH H) as (i & Hi & Hu). now exists (S i).
Qed.

Lemma find_at (f : JSON -> completion bool) (l : list JSON) (i : nat) (u : JSON) :
  l !! i = Some u -> f u = Normal true ->
  (forall j uj, j < i -> l !! j = Some uj -> f uj = Normal false) ->
  Js.find f l = Normal (Some u).
Proof.
  revert i. induction l as [|x l IH]; intros i Hi Hu Hbefore; [discriminate|].
  destruct i as [|i]; simpl in *.
  - inversion Hi; subst. now rewrite Hu.
  - rewrite (Hbefore 0 x) by (lia || reflexivity). simpl.
    apply (IH i); auto. intros j uj Hj Hl. apply (Hbefore (S j)); [lia | exact Hl].
Qed.

Lemma find_none_lookup (f : JSON -> completion bool) (l : list JSON) :
  (forall j uj, l !! j = Some uj -> f uj = Normal false) -> Js.find f l = Normal None.
Proof.
  intros H. apply find_none_iff, Forall_forall. intros x Hx.
  apply list_elem_of_lookup in Hx as [j Hj]. eauto.
Qed.

Lemma Login_success_inv (email password : string) (st st1 : state) (u : JSON) :
  Login email password st = (LoggedIn u, st1) ->
  let e := toLowerCase (safeTrim email) in
  let pass := safeTrim password in
  exists users,
    validateEmail (JStr e) = true /\ 4 <= String.length pass /\
    readUsers st = Normal users /\
    Js.find (credentialsMatch e pass) users = Normal (Some u) /\
    st1 = navigate ROUTES.account
            (setSession (JObj [("email", JStr e)]) (writeSession (JObj [("email", JStr e)]) st)).
Proof.
  intros H e pass. subst e pass. unfold Login, LoginPage_handleSubmit in H.
  destruct (validateEmail (JStr (toLowerCase (safeTrim email)))) eqn:V;
    cbn [negb] in H; [|discriminate H].
  destruct (Nat.ltb_spec (String.length (safeTrim password)) 4) as [Hlt|Hlen];
    [discriminate H|].
  unfold LoginPage_onTimeout in H. destruct (readUsers_returns st) as [users Hr].
  rewrite Hr in H. cbn [bind] in H.
  destruct (Js.find (credentialsMatch (toLowerCase (safeTrim email)) (safeTrim password)) users)
    as [[user|]|] eqn:F; try discriminate H.
  destruct (find_some_inv _ _ _ F) as (i & Hi & Hm).
  destruct (credentialsMatch_true_inv _ _ _ Hm) as (He & _ & _).
  rewrite He in H. unfold App_handleLogin in H. rewrite He in H.
  cbn [bind sessionOf] in H. inversion H; subst.
  exists users. repeat split; auto.
Qed.

Lemma Login_found (email password : string) (st : state) (users : list JSON) (u : JSON) :
  let e := toLowerCase (safeTrim email) in
  let pass := safeTrim password in
  validateEmail (JStr e) = true -> 4 <= String.length pass ->
  readUsers st = Normal users ->
  Js.find (credentialsMatch e pass) users = Normal (Some u) ->
  Login email password st
  = (LoggedIn u,
     navigate ROUTES.account
       (setSession (JObj [("email", JStr e)]) (writeSession (JObj [("email", JStr e)]) st))).
Proof.
  intros e pass Hv Hlen Hr F. subst e pass. unfold Login, LoginPage_handleSubmit.
  rewrite Hv. cbn [negb].
  destruct (Nat.ltb_spec (String.length (safeTrim password)) 4) as [Hlt|_]; [lia|].
  unfold LoginPage_onTimeout. rewrite Hr. cbn [bind]. rewrite F.
  destruct (find_some_inv _ _ _ F) as (i & Hi & Hm).
  destruct (credentialsMatch_true_inv _ _ _ Hm) as (He & _ & _).
  rewrite He. unfold App_handleLogin. rewrite He. reflexivity.
Qed.

Lemma Login_none (email password : string) (st : state) (users : list JSON) :
  let e := toLowerCase (safeTrim email) in
  let pass := safeTrim password in
  validateEmail (JStr e) = true -> 4 <= String.length pass ->
  readUsers st = Normal users ->
  Js.find (credentialsMatch e pass) users = Normal None ->
  Login email password st = (ShowError "Invalid email or password.", st).
Proof.
  intros e pass Hv Hlen Hr F. subst e pass. unfold Login, LoginPage_handleSubmit.
  rewrite Hv. cbn [negb].
  destruct (Nat.ltb_spec (String.length (safeTrim password)) 4) as [Hlt|_]; [lia|].
  unfold LoginPage_onTimeout. rewrite Hr. cbn [bind]. now rewrite F.
Qed.

(** X13: a registration, whatever its inputs and outcome, does not disturb
    the login of a user already stored: credentials that logged in before it
    still log in, as the same record, after it. The stored list is a list of
    [plain] values. *)
Theorem registration_keeps_logins (email password name' email' password' confirm' : string)
    (st st1 : state) (users : list JSON) (u : JSON) :
  readUsers st = Normal users -> forallb plain users = true ->
  Login email password st = (LoggedIn u, st1) ->
  fst (Login email password
         (snd (RegisterPage_handleSubmit name' email' password' confirm' st)))
  = LoggedIn u.
Proof.
  intros Hr Hplain Hlogin.
  destruct (Register_writes_only_on_success name' email' password' confirm' st)
    as [[msg Hs]|Hsame]; [|now rewrite Hsame, Hlogin].
  destruct (RegisterPage_handleSubmit name' email' password' confirm' st) as [o st'] eqn:E.
  simpl in Hs. subst o.
  destruct (Register_success_inv _ _ _ _ _ _ _ _ Hr E) as (_ & _ & _ & _ & _ & ->).
  destruct (Login_success_inv _ _ _ _ _ Hlogin) as (users0 & Hv & Hlen & Hr0 & F & _).
  rewrite Hr in Hr0. inversion Hr0; subst users0. cbn [snd].
  erewrite Login_found; [reflexivity | exact Hv | exact Hlen | |].
  - apply readUsers_writeUsers, forallb_plain_snoc, Hplain.
  - now apply find_app_some.
Qed.


(** ** After a login: the page shown, saving, changing the password *)

Lemma forallb_normalized_objects (l : list JSON) :
  forallb normalized l = true -> forallb isObject l = true.
Proof.
  induction l as [|u l IH]; simpl; [reflexivity|].
  rewrite andb_true_iff. intros [Hu Hl].
  apply normalized_plain_object, andb_true_iff in Hu as [Hu _]. now rewrite Hu, IH.
Qed.

Lemma find_unique (users : list JSON) (i : nat) (u : JSON) (e : string) :
  uniqueEmails users -> users !! i = Some u -> hasEmail e u = true ->
  List.find (hasEmail e) users = Some u.
Proof.
  intros Huniq Hi He. destruct (List.find (hasEmail e) users) as [u'|] eqn:F.
  - apply List.find_some in F as [Hin He'].
    apply list_elem_of_In, list_elem_of_lookup in Hin as [j Hj].
    assert (j = i) by exact (Huniq j i u' u e Hj Hi He' He). subst j. congruence.
  - apply List.find_none with (x := u) in F; [congruence|].
    apply list_elem_of_In, list_elem_of_lookup. eauto.
Qed.

Lemma credentialsMatch_other (e p : string) (u : JSON) :
  normalized u = true -> hasEmail e u = false -> credentialsMatch e p u = Normal false.
Proof.
  intros Hu He. destruct (normalized_inv u Hu) as (n & e0 & p0 & -> & _).
  rewrite hasEmail_newUser in He. now rewrite credentialsMatch_newUser_eq, He.
Qed.

Lemma findIndexFrom_hit (f : JSON -> completion bool) (l : list JSON) (i idx : Z) :
  Js.findIndexFrom i f l = Normal idx -> idx <> (-1)%Z -> (0 <= i)%Z ->
  exists (k : nat) (u : JSON),
    idx = (i + Z.of_nat k)%Z /\ l !! k = Some u /\ f u = Normal true.
Proof.
  revert i. induction l as [|u l IH]; intros i; simpl.
  - intros [= <-] H. contradiction.
  - destruct (f u) as [[]|] eqn:E; simpl; try discriminate.
    + intros [= <-] _ _. exists 0, u. split; [lia|]. split; [reflexivity | exact E].
    + intros H Hne Hi. destruct (IH _ H Hne) as (k & u' & -> & Hk & Hu); [lia|].
      exists (S k), u'. split; [lia|]. split; assumption.
Qed.

(** What a successful save did, and to which record. *)
Lemma Save_success_hit (session : JSON) (name password msg : string) (st st' : state)
    (users : list JSON) :
  readUsers st = Normal users ->
  AccountPage_handleSave session name password st = (ShowSuccess msg, st') ->
  2 <= String.length (safeTrim name) /\ 4 <= String.length (safeTrim password) /\
  exists (i : nat) (u : JSON),
    users !! i = Some u /\ sessionEmailIs session u = Normal true /\
    st' = writeUsers
            (<[i := withNameAndPassword (Some u) (safeTrim name) (safeTrim password)]> users) st.
Proof.
  intros Hr. unfold AccountPage_handleSave. rewrite Hr.
  destruct (Nat.ltb_spec (String.length (safeTrim name)) 2) as [Hlt|Hn];
    [intros H; discriminate H|].
  destruct (Nat.ltb_spec (String.length (safeTrim password)) 4) as [Hlt|Hp];
    [intros H; discriminate H|].
  unfold bind, Js.findIndex.
  destruct (Js.findIndexFrom 0 (sessionEmailIs session) users) as [idx|] eqn:Hidx;
    [|intros H; discriminate H].
  destruct (Z.eqb_spec idx (-1)) as [->|Hne]; [intros H; discriminate H|].
  destruct (findIndexFrom_hit _ _ _ _ Hidx Hne) as (k & u & -> & Hk & Hu); [lia|].
  rewrite Z.add_0_l, Nat2Z.id, Hk. intros H. inversion H; subst.
  split; [exact Hn|]. split; [exact Hp|]. now exists k, u.
Qed.

(** X14: in a store the app has populated, a login that succeeds lands on
    the account route, where App shows the Account page, the redirect effect
    has nothing to do, the session is [{ email: e }] with [e] the normalized
    email typed, and the Account page shows the form filled with the very
    record the login found. *)
Theorem login_shows_own_profile (email password : string) (st st1 : state) (u : JSON) :
  populated st ->
  Login email password st = (LoggedIn u, st1) ->
  App_page st1 = AccountPageView (appSession st1) /\
  App_redirect st1 = st1 /\
  sessionIs (toLowerCase (safeTrim email)) st1 /\
  AccountPage_render (appSession st1) st1 = Normal (ProfileForm u).
Proof.
  intros Hpop Hlogin.
  destruct (populated_inv st Hpop) as (users & Hr & Hall & Huniq & _).
  destruct (Login_success_inv _ _ _ _ _ Hlogin) as (users0 & Hv & Hlen & Hr0 & F & ->).
  rewrite Hr in Hr0. inversion Hr0; subst users0.
  set (e := toLowerCase (safeTrim email)) in *.
  split; [reflexivity|]. split; [reflexivity|]. split.
  - split; [apply getItem_setItem|]. split; [|reflexivity].
    apply (readSession_writeSession (JObj [("email", JStr e)])); reflexivity.
  - destruct (find_some_inv _ _ _ F) as (i & Hi & Hm).
    destruct (credentialsMatch_true_inv _ _ _ Hm) as (_ & _ & He).
    rewrite (render_first_with_email _ e users); try reflexivity.
    + now rewrite (find_unique users i u e Huniq Hi He).
    + rewrite <- Hr. exact (readUsers_writeSession (JObj [("email", JStr e)]) st).
    + now apply forallb_normalized_objects.
Qed.


Lemma findIndex_unique (session : JSON) (e : string) (users : list JSON) (i : nat) (u : JSON) :
  Js.get session "email" = Normal (Some (JStr e)) ->
  forallb isObject users = true -> uniqueEmails users ->
  users !! i = Some u -> hasEmail e u = true ->
  Js.findIndex (sessionEmailIs session) users = Normal (Z.of_nat i).
Proof.
  intros Hs Hobj Huniq Hi He.
  assert (Hcb : Forall (fun x => sessionEmailIs session x = Normal (hasEmail e x)) users).
  { apply Forall_forall. intros x Hx. apply sessionEmailIs_object; [|exact Hs].
    apply list_elem_of_lookup in Hx as [j Hj]. exact (forallb_lookup _ _ _ _ Hobj Hj). }
  assert (Hex : existsb (hasEmail e) users = true).
  { apply existsb_exists. exists u. split; [|exact He].
    apply list_elem_of_In, list_elem_of_lookup. eauto. }
  destruct (findIndexFrom_first _ _ users 0%Z Hcb Hex) as (k & uk & Hidx & Hk & Hg & _).
  assert (k = i) by exact (Huniq k i uk u e Hk Hi Hg He). subst k.
  unfold Js.findIndex. rewrite Hidx. reflexivity.
Qed.

(** X15: in a store the app has populated, saving the profile the Account
    page shows without editing it reports success and changes nothing: not
    the stored text, not the session, not the route. *)
Theorem save_unedited_profile (session : JSON) (e : string) (st : state) (u : JSON) :
  populated st ->
  Js.get session "email" = Normal (Some (JStr e)) ->
  AccountPage_render session st = Normal (ProfileForm u) ->
  AccountPage_submit session u st = (ShowSuccess "Account updated.", st).
Proof.
  intros Hpop Hs Hview.
  destruct (populated_inv st Hpop) as (users & Hr & Hall & Huniq & Htext).
  pose proof (forallb_normalized_objects users Hall) as Hobj.
  rewrite (render_first_with_email session e users st Hs Hr Hobj) in Hview.
  destruct (List.find (hasEmail e) users) as [u'|] eqn:F; [|discriminate Hview].
  inversion Hview; subst u'. apply List.find_some in F as [Hin He].
  apply list_elem_of_In, list_elem_of_lookup in Hin as [i Hi].
  pose proof (forallb_lookup _ _ _ _ Hall Hi) as Hu.
  destruct (normalized_inv u Hu) as (n & e0 & p & -> & Hn & Hln & Hp & Hlp & _).
  rewrite (submit_on_strings session _ n p) by reflexivity.
  unfold AccountPage_handleSave. rewrite !safeTrim_trim, Hn, Hp.
  destruct (Nat.ltb_spec (String.length n) 2) as [|_]; [lia|].
  destruct (Nat.ltb_spec (String.length p) 4) as [|_]; [lia|].
  rewrite Hr. cbn [bind].
  rewrite (findIndex_unique session e users i _ Hs Hobj Huniq Hi He). cbn [bind].
  destruct (Z.eqb_spec (Z.of_nat i) (-1)) as [|_]; [lia|].
  rewrite Nat2Z.id, Hi. f_equal.
  change (withNameAndPassword (Some (newUser n e0 p)) n p) with (newUser n e0 p).
  rewrite list_insert_id by exact Hi.
  destruct Htext as [[_ ->]|Hsome]; [discriminate Hi|].
  now apply setItem_same.
Qed.

(** X16: in a store the app has populated, after a user logs in and saves a
    new password, logging in with the same email and the new password
    succeeds and finds the updated record, and logging in with the old
    password, when it differs from the new one, fails with the lookup
    message and changes nothing. *)
Theorem change_password_then_login (email password name' password' msg : string)
    (st st1 st2 : state) (u : JSON) :
  populated st ->
  Login email password st = (LoggedIn u, st1) ->
  UpdateProfile name' password' st1 = (ShowSuccess msg, st2) ->
  fst (Login email password' st2)
  = LoggedIn (newUser (safeTrim name') (toLowerCase (safeTrim email)) (safeTrim password')) /\
  (safeTrim password <> safeTrim password' ->
   Login email password st2 = (ShowError "Invalid email or password.", st2)).
Proof.
  intros Hpop Hlogin Hsave.
  destruct (populated_inv st Hpop) as (users & Hr & Hall & Huniq & _).
  pose proof (forallb_normalized_objects users Hall) as Hobj.
  destruct (Login_success_inv _ _ _ _ _ Hlogin) as (users0 & Hv & Hlen & Hr0 & F & ->).
  rewrite Hr in Hr0. inversion Hr0; subst users0.
  set (e := toLowerCase (safeTrim email)) in *.
  set (sess := JObj [("email", JStr e)]) in *.
  set (st1 := navigate ROUTES.account (setSession sess (writeSession sess st))) in *.
  assert (Hr1 : readUsers st1 = Normal users).
  { rewrite <- Hr. exact (readUsers_writeSession sess st). }
  destruct (find_some_inv _ _ _ F) as (i & Hi & Hm).
  destruct (credentialsMatch_true_inv _ _ _ Hm) as (_ & _ & He).
  unfold UpdateProfile in Hsave. change (appSession st1) with sess in Hsave.
  destruct (Save_success_hit _ _ _ _ _ _ _ Hr1 Hsave) as (Hn' & Hp' & k & uk & Hk & Hcb & ->).
  assert (Hek : hasEmail e uk = true).
  { rewrite (sessionEmailIs_object sess uk e) in Hcb; [now inversion Hcb| |reflexivity].
    exact (forallb_lookup _ _ _ _ Hobj Hk). }
  assert (k = i) by exact (Huniq k i uk u e Hk Hi Hek He). subst k.
  assert (uk = u) by congruence. subst uk.
  pose proof (forallb_lookup _ _ _ _ Hall Hi) as Hu.
  destruct (normalized_inv u Hu) as (n & e0 & p & -> & _).
  rewrite hasEmail_newUser in He. apply String.eqb_eq in He. subst e0.
  change (withNameAndPassword (Some (newUser n e p)) (safeTrim name') (safeTrim password'))
    with (newUser (safeTrim name') e (safeTrim password')) in *.
  set (new := newUser (safeTrim name') e (safeTrim password')) in *.
  set (users2 := <[i := new]> users) in *.
  assert (Hlt : i < length users) by (eapply lookup_lt_Some; exact Hi).
  assert (Hr2 : readUsers (writeUsers users2 st1) = Normal users2).
  { apply readUsers_writeUsers, forallb_normalized_plain, forallb_insert; [exact Hall|].
    apply normalized_newUser; auto using safeTrim_normal.
    destruct (normalized_inv _ Hu) as (? & ? & ? & Hshape & _ & _ & _ & _ & Hlow).
    inversion Hshape; subst. exact Hlow. }
  assert (Hothers : forall pw j uj, j <> i -> users2 !! j = Some uj ->
                    credentialsMatch e pw uj = Normal false).
  { intros pw j uj Hj Hl. unfold users2 in Hl.
    rewrite list_lookup_insert_ne in Hl by congruence.
    apply credentialsMatch_other; [exact (forallb_lookup _ _ _ _ Hall Hl)|].
    destruct (hasEmail e uj) eqn:Hej; [|reflexivity].
    destruct Hj. exact (Huniq j i uj (newUser n e p) e Hl Hi Hej (String.eqb_refl e)). }
  assert (Hi2 : users2 !! i = Some new) by (unfold users2; now apply list_lookup_insert_eq).
  split.
  - erewrite Login_found; [reflexivity | exact Hv | lia | exact Hr2 |].
    apply (find_at _ users2 i new Hi2).
    + unfold new. now rewrite credentialsMatch_newUser_eq, !String.eqb_refl.
    + intros j uj Hj Hl. apply (Hothers _ j uj); [lia | exact Hl].
  - intros Hdiff. apply (Login_none email password _ users2); auto.
    apply find_none_lookup. intros j uj Hl.
    destruct (Nat.eq_dec j i) as [->|Hj]; [|now apply (Hothers _ j uj)].
    rewrite Hi2 in Hl. inversion Hl; subst uj. unfold new.
    rewrite credentialsMatch_newUser_eq, String.eqb_refl. cbn [andb]. f_equal.
    apply String.eqb_neq. congruence.
Qed.


(** ** The session record *)

(** X17: [writeSession] followed by [readSession]: a falsy session ([null],
    [false], the empty string) removes the record and reads back as null; a
    truthy [plain] session is read back as it was written. Either way no
    other record of the store changes. *)
Theorem session_write_then_read (session : JSON) (st : state) :
  (Js.truthy session = false ->
     getItem STORAGE_KEYS.session (writeSession session st) = None /\
     readSession (writeSession session st) = Normal JNull) /\
  (Js.truthy session = true -> plain session = true ->
     readSession (writeSession session st) = Normal session) /\
  (forall k, k <> STORAGE_KEYS.session ->
     getItem k (writeSession session st) = getItem k st).
Proof.
  split; [|split].
  - intros Hf. unfold writeSession. rewrite Hf. cbn [negb].
    assert (H : getItem STORAGE_KEYS.session (removeItem STORAGE_KEYS.session st) = None)
      by apply getItem_removeItem.
    split; [exact H|]. unfold readSession. now rewrite H.
  - intros Ht Hp. now apply readSession_writeSession.
  - intros k Hk. now apply getItem_writeSession_ne.
Qed.

(** ** Records are never removed *)

(** X18: in a store the app has populated, no handler removes or moves a
    stored record or changes its email: after a registration, a profile
    save, a login or a logout, with any inputs, every position of the list
    stored before still holds a record, with the same email. *)
Theorem records_stay (st : state) (users : list JSON) :
  populated st -> readUsers st = Normal users ->
  forall st' : state,
    ((exists name email password confirm,
        st' = snd (RegisterPage_handleSubmit name email password confirm st)) \/
     (exists session name password,
        st' = snd (AccountPage_handleSave session name password st)) \/
     (exists email password, st' = snd (Login email password st)) \/
     st' = App_handleLogout st) ->
  exists users', readUsers st' = Normal users' /\
    forall i u, users !! i = Some u ->
      exists u', users' !! i = Some u' /\ forall e, hasEmail e u' = hasEmail e u.
Proof.
  intros Hpop Hr st' Hstep.
  destruct (populated_inv st Hpop) as (users0 & Hr0 & Hall & _).
  rewrite Hr in Hr0. inversion Hr0; subst users0.
  assert (Hsame : forall s : state, readUsers s = Normal users ->
            exists users', readUsers s = Normal users' /\
              forall i u, users !! i = Some u ->
                exists u', users' !! i = Some u' /\ forall e, hasEmail e u' = hasEmail e u).
  { intros s H. exists users. split; [exact H|]. intros i u Hi. exists u. now split. }
  destruct Hstep as [(name & email & password & confirm & ->)
                    |[(session & name & password & ->)
                     |[(email & password & ->) | ->]]].
  - destruct (Register_writes_only_on_success name email password confirm st)
      as [[msg Hs]|Hs]; [|apply Hsame; now rewrite Hs].
    destruct (RegisterPage_handleSubmit name email password confirm st) as [o st'] eqn:E.
    simpl in Hs. subst o.
    destruct (Register_success_inv _ _ _ _ _ _ _ _ Hr E) as (_ & _ & _ & _ & _ & ->).
    eexists. cbn [snd]. split.
    + apply readUsers_writeUsers, forallb_plain_snoc, forallb_normalized_plain, Hall.
    + intros i u Hi. exists u. split; [|reflexivity].
      rewrite lookup_app_l; [exact Hi | eapply lookup_lt_Some; exact Hi].
  - destruct (Save_writes_only_on_success session name password st)
      as [[msg Hs]|Hs]; [|apply Hsame; now rewrite Hs].
    destruct (AccountPage_handleSave session name password st) as [o st'] eqn:E.
    simpl in Hs. subst o.
    destruct (Save_success_inv _ _ _ _ _ _ _ Hr E) as (Hn & Hp & k & uk & Hk & ->).
    pose proof (forallb_lookup _ _ _ _ Hall Hk) as Huk.
    eexists. cbn [snd]. split.
    + apply readUsers_writeUsers, forallb_normalized_plain, forallb_insert; [exact Hall|].
      now apply normalized_withNameAndPassword.
    + intros i u Hi. destruct (Nat.eq_dec k i) as [->|Hne].
      * eexists. split; [apply list_lookup_insert_eq; eapply lookup_lt_Some; exact Hi|].
        intros e. assert (uk = u) by congruence. subst uk.
        now apply hasEmail_withNameAndPassword.
      * exists u. split; [|reflexivity]. now rewrite list_lookup_insert_ne.
  - apply Hsame. rewrite <- Hr. apply handlers_keep_users_unless_written.
  - apply Hsame. rewrite <- Hr. apply handlers_keep_users_unless_written.
Qed.

End App.

(** ** The reference reader undoes the reference writer *)

Lemma JSON_induction (P : JSON -> Prop) :
  P JNull -> (forall b, P (JBool b)) -> (forall r, P (JNum r)) -> (forall s, P (JStr s)) ->
  (forall l, Forall P l -> P (JArr l)) ->
  (forall ps, Forall (fun kv => P (snd kv)) ps -> P (JObj ps)) ->
  forall v, P v.
Proof.
  intros Hnull Hbool Hnum Hstr Harr Hobj. fix IH 1.
  intros [|b|r|s|l|ps]; [exact Hnull | apply Hbool | apply Hnum | apply Hstr | |].
  - apply Harr. revert l. fix IHl 1. intros [|x l]; constructor; [apply IH | apply IHl].
  - apply Hobj. revert ps. fix IHps 1. intros [|kv ps]; constructor; [apply IH | apply IHps].
Qed.

Lemma append_cons (c : ascii) (a b : string) : (String c a ++ b = String c (a ++ b))%string.
Proof. reflexivity. Qed.

Lemma append_assoc (a b c : string) : ((a ++ b) ++ c = a ++ (b ++ c))%string.
Proof.
  induction a as [|x a IH]; [reflexivity|]. now rewrite !append_cons, IH.
Qed.

Lemma length_append (a b : string) :
  String.length (a ++ b) = String.length a + String.length b.
Proof.
  induction a as [|x a IH]; [reflexivity|]. rewrite append_cons. simpl. now rewrite IH.
Qed.

Lemma parseChars_quoteChar (c : ascii) (s : string) :
  RefJSON.parseChars (RefJSON.quoteChar c ++ s) =
    match RefJSON.parseChars s with
    | Some (t, r) => Some (String c t, r)
    | None => None
    end.
Proof. destruct c as [[] [] [] [] [] [] [] []]; reflexivity. Qed.

Lemma parseChars_quoteChars (s r : string) :
  RefJSON.parseChars (RefJSON.quoteChars s ++ String RefJSON.dquote r) = Some (s, r).
Proof.
  induction s as [|c s IH]; [reflexivity|].
  change (RefJSON.quoteChars (String c s))
    with (RefJSON.quoteChar c ++ RefJSON.quoteChars s)%string.
  rewrite append_assoc, parseChars_quoteChar, IH. reflexivity.
Qed.

Lemma parseValue_null (f : nat) (rest : string) :
  RefJSON.parseValue (S f) ("null" ++ rest) = Some (JNull, rest).
Proof. reflexivity. Qed.

Lemma parseValue_bool (f : nat) (b : bool) (rest : string) :
  RefJSON.parseValue (S f) (RefJSON.stringify (JBool b) ++ rest) = Some (JBool b, rest).
Proof. destruct b; reflexivity. Qed.

Lemma parseValue_string (f : nat) (s rest : string) :
  RefJSON.parseValue (S f) (RefJSON.quote s ++ rest) = Some (JStr s, rest).
Proof.
  unfold RefJSON.quote. rewrite append_cons, append_assoc, append_cons.
  change (RefJSON.parseValue (S f)
            (String RefJSON.dquote (RefJSON.quoteChars s ++ String RefJSON.dquote (EmptyString ++ rest))))
    with (match RefJSON.parseChars
                  (RefJSON.quoteChars s ++ String RefJSON.dquote (EmptyString ++ rest)) with
          | Some (t, r') => Some (JStr t, r')
          | None => None
          end).
  now rewrite parseChars_quoteChars.
Qed.

Lemma parseValue_array_empty (f : nat) (rest : string) :
  RefJSON.parseValue (S f) ("[]" ++ rest) = Some (JArr [], rest).
Proof. reflexivity. Qed.

Lemma parseValue_object_empty (f : nat) (rest : string) :
  RefJSON.parseValue (S f) ("{}" ++ rest) = Some (JObj [], rest).
Proof. reflexivity. Qed.

Lemma parseValue_array (f : nat) (r : string) :
  RefJSON.expect "]" r = None ->
  RefJSON.parseValue (S f) (String "[" r) =
    match RefJSON.parseValue f r with
    | Some (x, r1) =>
        match RefJSON.parseElements f r1 with
        | Some (l, r2) => Some (JArr (x :: l), r2)
        | None => None
        end
    | None => None
    end.
Proof.
  intros H.
  change (RefJSON.parseValue (S f) (String "[" r))
    with (match RefJSON.expect "]" r with
          | Some r' => Some (JArr [], r')
          | None =>
              match RefJSON.parseValue f r with
              | Some (x, r1) =>
                  match RefJSON.parseElements f r1 with
                  | Some (l, r2) => Some (JArr (x :: l), r2)
                  | None => None
                  end
              | None => None
              end
          end).
  now rewrite H.
Qed.

Lemma parseValue_object (f : nat) (r : string) :
  RefJSON.expect "}" r = None ->
  RefJSON.parseValue (S f) (String "{" r) =
    match RefJSON.parseKey r with
    | Some (k, r0) =>
        match RefJSON.parseValue f r0 with
        | Some (x, r1) =>
            match RefJSON.parseMembers f r1 with
            | Some (ps, r2) => Some (JObj (RefJSON.members ((k, x) :: ps)), r2)
            | None => None
            end
        | None => None
        end
    | None => None
    end.
Proof.
  intros H.
  change (RefJSON.parseValue (S f) (String "{" r))
    with (match RefJSON.expect "}" r with
          | Some r' => Some (JObj [], r')
          | None =>
              match RefJSON.parseKey r with
              | Some (k, r0) =>
                  match RefJSON.parseValue f r0 with
                  | Some (x, r1) =>
                      match RefJSON.parseMembers f r1 with
                      | Some (ps, r2) => Some (JObj (RefJSON.members ((k, x) :: ps)), r2)
                      | None => None
                      end
                  | None => None
                  end
              | None => None
              end
          end).
  now rewrite H.
Qed.

Lemma parseElements_close (f : nat) (rest : string) :
  RefJSON.parseElements (S f) (String "]" rest) = Some ([], rest).
Proof. reflexivity. Qed.

Lemma parseElements_comma (f : nat) (r : string) :
  RefJSON.parseElements (S f) (String "," r) =
    match RefJSON.parseValue f r with
    | Some (x, r1) =>
        match RefJSON.parseElements f r1 with
        | Some (l, r2) => Some (x :: l, r2)
        | None => None
        end
    | None => None
    end.
Proof. reflexivity. Qed.

Lemma parseMembers_close (f : nat) (rest : string) :
  RefJSON.parseMembers (S f) (String "}" rest) = Some ([], rest).
Proof. reflexivity. Qed.

Lemma parseMembers_comma (f : nat) (r : string) :
  RefJSON.parseMembers (S f) (String "," r) =
    match RefJSON.parseKey r with
    | Some (k, r0) =>
        match RefJSON.parseValue f r0 with
        | Some (x, r1) =>
            match RefJSON.parseMembers f r1 with
            | Some (ps, r2) => Some ((k, x) :: ps, r2)
            | None => None
            end
        | None => None
        end
    | None => None
    end.
Proof. reflexivity. Qed.

Lemma parseKey_quote (k rest : string) :
  indexLike k = false ->
  RefJSON.parseKey (RefJSON.quote k ++ String ":" rest) = Some (k, rest).
Proof.
  intros Hk. unfold RefJSON.quote. rewrite append_cons, append_assoc, append_cons.
  change (RefJSON.parseKey
            (String RefJSON.dquote
               (RefJSON.quoteChars k ++ String RefJSON.dquote (EmptyString ++ String ":" rest))))
    with (match RefJSON.parseChars
                  (RefJSON.quoteChars k ++ String RefJSON.dquote (EmptyString ++ String ":" rest)) with
          | Some (k', r1) =>
              if indexLike k' then None
              else match RefJSON.expect ":" r1 with
                   | Some r2 => Some (k', r2)
                   | None => None
                   end
          | None => None
          end).
  rewrite parseChars_quoteChars, Hk. reflexivity.
Qed.


Lemma stringify_opens (v : JSON) : plain v = true -> RefJSON.opens (RefJSON.stringify v).
Proof.
  unfold RefJSON.opens. destruct v as [|[]|r|s|[|x l]|[|kx ps]]; intros H; try discriminate;
    try (eexists _, _; split; [reflexivity|]; tauto).
Qed.

Lemma expect_opens (c : ascii) (s rest : string) :
  RefJSON.opens s -> c = "]"%char \/ c = "}"%char -> RefJSON.expect c (s ++ rest) = None.
Proof.
  intros (c0 & t & -> & Hc) Hclose.
  destruct Hc as [-> | [-> | [-> | [-> | [-> | ->]]]]]; destruct Hclose as [-> | ->];
    reflexivity.
Qed.

Lemma quote_opens (k : string) : RefJSON.opens (RefJSON.quote k).
Proof. eexists _, _. split; [reflexivity|]. tauto. Qed.

Lemma setProp_fresh (acc : list (string * JSON)) (k : string) (v : JSON) :
  existsb (fun k' => String.eqb k' k) (map fst acc) = false ->
  Js.setProp acc k v = acc ++ [(k, v)].
Proof.
  induction acc as [|[k' v'] acc IH]; simpl; [reflexivity|].
  rewrite orb_false_iff. intros [-> H]. now rewrite IH.
Qed.

Lemma distinct_middle (l1 l2 : list string) (k : string) :
  distinct (l1 ++ k :: l2) = true -> existsb (fun k' => String.eqb k' k) l1 = false.
Proof.
  induction l1 as [|a l1 IH]; simpl; [reflexivity|].
  rewrite andb_true_iff, negb_true_iff, existsb_app. simpl.
  rewrite !orb_false_iff. intros [(_ & Hak & _) Hd]. now rewrite Hak, IH.
Qed.

Lemma members_distinct_from (acc ps : list (string * JSON)) :
  distinct (map fst (acc ++ ps)) = true ->
  fold_left (fun a kv => Js.setProp a (fst kv) (snd kv)) ps acc = acc ++ ps.
Proof.
  revert acc. induction ps as [|[k v] ps IH]; intros acc Hd; simpl.
  - now rewrite app_nil_r.
  - rewrite setProp_fresh.
    + rewrite IH; rewrite <- app_assoc; [reflexivity | exact Hd].
    + rewrite map_app in Hd. simpl in Hd. now apply distinct_middle in Hd.
Qed.

Lemma members_distinct (ps : list (string * JSON)) :
  distinct (map fst ps) = true -> RefJSON.members ps = ps.
Proof. intros H. unfold RefJSON.members. now rewrite members_distinct_from. Qed.


Lemma reads_elements (l : list JSON) :
  Forall RefJSON.reads l -> forallb plain l = true ->
  forall (fuel : nat) (rest : string),
    String.length (RefJSON.joinTail RefJSON.stringify "]" l) <= fuel ->
    RefJSON.parseElements fuel (RefJSON.joinTail RefJSON.stringify "]" l ++ rest)
    = Some (l, rest).
Proof.
  induction 1 as [|y l Hy _ IH]; intros Hp fuel rest Hfuel.
  - destruct fuel as [|f]; [simpl in Hfuel; lia|]. reflexivity.
  - simpl in Hp. apply andb_true_iff in Hp as [Hpy Hpl].
    change (RefJSON.joinTail RefJSON.stringify "]" (y :: l))
      with (String "," (RefJSON.stringify y ++ RefJSON.joinTail RefJSON.stringify "]" l))
      in *.
    simpl in Hfuel. rewrite length_append in Hfuel.
    destruct fuel as [|f]; [lia|].
    rewrite append_cons, append_assoc, parseElements_comma.
    rewrite (Hy Hpy) by lia. rewrite (IH Hpl) by lia. reflexivity.
Qed.

Lemma reads_members (ps : list (string * JSON)) :
  Forall (fun kv => RefJSON.reads (snd kv)) ps ->
  forallb (fun kv => negb (indexLike (fst kv)) && plain (snd kv)) ps = true ->
  forall (fuel : nat) (rest : string),
    let item := fun ky : string * JSON =>
      (RefJSON.quote (fst ky) ++ ":" ++ RefJSON.stringify (snd ky))%string in
    String.length (RefJSON.joinTail item "}" ps) <= fuel ->
    RefJSON.parseMembers fuel (RefJSON.joinTail item "}" ps ++ rest) = Some (ps, rest).
Proof.
  induction 1 as [|[k y] ps Hy _ IH]; intros Hp fuel rest item Hfuel.
  - destruct fuel as [|f]; [simpl in Hfuel; lia|]. reflexivity.
  - simpl in Hy, Hp. apply andb_true_iff in Hp as [Hpy Hpl].
    apply andb_true_iff in Hpy as [Hk Hpy]. apply negb_true_iff in Hk.
    change (RefJSON.joinTail item "}" ((k, y) :: ps))
      with (String "," ((RefJSON.quote k ++ String ":" (RefJSON.stringify y))
                        ++ RefJSON.joinTail item "}" ps)) in *.
    simpl in Hfuel. rewrite !length_append in Hfuel. simpl in Hfuel.
    destruct fuel as [|f]; [lia|].
    rewrite append_cons, !append_assoc, append_cons, parseMembers_comma.
    rewrite parseKey_quote by exact Hk.
    rewrite (Hy Hpy) by lia. rewrite (IH Hpl) by (subst item; lia). reflexivity.
Qed.

Lemma reads_all (v : JSON) : RefJSON.reads v.
Proof.
  induction v as [|b|r|s|l IH|ps IH] using JSON_induction; intros Hp fuel rest Hfuel.
  - destruct fuel as [|f]; [simpl in Hfuel; lia|]. apply parseValue_null.
  - destruct fuel as [|f]; [destruct b; simpl in Hfuel; lia|]. apply parseValue_bool.
  - discriminate.
  - destruct fuel as [|f]; [simpl in Hfuel; lia|]. apply parseValue_string.
  - destruct l as [|x l].
    + destruct fuel as [|f]; [simpl in Hfuel; lia|]. apply parseValue_array_empty.
    + inversion IH as [|? ? Hx Hl]; subst.
      simpl in Hp. apply andb_true_iff in Hp as [Hpx Hpl].
      change (RefJSON.stringify (JArr (x :: l)))
        with (String "[" (RefJSON.stringify x ++ RefJSON.joinTail RefJSON.stringify "]" l))
        in *.
      simpl in Hfuel. rewrite length_append in Hfuel.
      destruct fuel as [|f]; [lia|].
      rewrite append_cons, append_assoc, parseValue_array.
      * rewrite (Hx Hpx) by lia. rewrite (reads_elements l Hl Hpl) by lia. reflexivity.
      * apply expect_opens; [now apply stringify_opens | now left].
  - destruct ps as [|[k x] ps].
    + destruct fuel as [|f]; [simpl in Hfuel; lia|]. apply parseValue_object_empty.
    + inversion IH as [|? ? Hx Hl]; subst.
      assert (Hd : distinct (map fst ((k, x) :: ps)) = true)
        by (simpl in Hp; now apply andb_true_iff in Hp as [Hd _]).
      simpl in Hp. apply andb_true_iff in Hp as [_ Hp].
      apply andb_true_iff in Hp as [Hkx Hpl]. apply andb_true_iff in Hkx as [Hk Hpx].
      apply negb_true_iff in Hk.
      set (item := fun ky : string * JSON =>
             (RefJSON.quote (fst ky) ++ ":" ++ RefJSON.stringify (snd ky))%string).
      change (RefJSON.stringify (JObj ((k, x) :: ps)))
        with (String "{" (RefJSON.quote k
                          ++ String ":" (RefJSON.stringify x ++ RefJSON.joinTail item "}" ps)))
        in *.
      simpl in Hfuel. rewrite !length_append in Hfuel. simpl in Hfuel.
      rewrite length_append in Hfuel.
      destruct fuel as [|f]; [lia|].
      rewrite append_cons, append_assoc, append_cons, append_assoc, parseValue_object.
      * rewrite parseKey_quote by exact Hk. simpl in Hx.
        rewrite (Hx Hpx) by lia.
        rewrite (reads_members ps Hl Hpl) by (fold item; lia).
        now rewrite members_distinct.
      * apply expect_opens; [apply quote_opens | now right].
Qed.

Lemma append_empty (s : string) : (s ++ EmptyString)%string = s.
Proof. induction s as [|c s IH]; [reflexivity|]. now rewrite append_cons, IH. Qed.

(** Reading what the reference writer wrote for a [plain] value gives the
    value back. *)
Lemma RefJSON_parse_stringify (v : JSON) :
  plain v = true -> RefJSON.parse (RefJSON.stringify v) = Normal v.
Proof.
  intros Hp. unfold RefJSON.parse.
  rewrite <- (append_empty (RefJSON.stringify v)) at 2.
  rewrite (reads_all v Hp) by lia. reflexivity.
Qed.

Lemma RefJSON_stringify_nonempty (v : JSON) :
  plain v = true -> RefJSON.stringify v <> EmptyString.
Proof.
  intros Hp. destruct (stringify_opens v Hp) as (c & t & -> & _). discriminate.
Qed.

Lemma RefJSON_readsBack (v : JSON) :
  plain v = true -> readsBack RefJSON.parse RefJSON.stringify v.
Proof.
  intros Hp. split; [now apply RefJSON_stringify_nonempty | now apply RefJSON_parse_stringify].
Qed.

(** ** The handlers on concrete stores

    The handlers run with the reference reader and writer, on a browser that
    holds nothing and on the store left by Jane Doe's registration. *)


Example jane_registers :
  RegisterPage_handleSubmit RefJSON.parse RefJSON.stringify
    " Jane Doe" "Jane@X.com " "abcd" " abcd " freshBrowser
  = (ShowSuccess "Registration successful. You can now log in.", janeRegistered).
Proof. reflexivity. Qed.

Example janeRegistered_text :
  getItem STORAGE_KEYS.users janeRegistered
  = Some (RefJSON.jsonText "[{'name':'Jane Doe','email':'jane@x.com','password':'abcd'}]").
Proof. reflexivity. Qed.

Example janeRegistered_users :
  readUsers RefJSON.parse janeRegistered = Normal [newUser "Jane Doe" "jane@x.com" "abcd"].
Proof. reflexivity. Qed.

Example jane_logs_in :
  let r := Login RefJSON.parse RefJSON.stringify "JANE@X.COM" " abcd " janeRegistered in
  fst r = LoggedIn (newUser "Jane Doe" "jane@x.com" "abcd") /\
  getItem STORAGE_KEYS.session (snd r) = Some (RefJSON.jsonText "{'email':'jane@x.com'}") /\
  readSession RefJSON.parse (snd r) = Normal janeSession /\
  appSession (snd r) = janeSession /\
  hash (snd r) = ROUTES.account.
Proof. repeat split; reflexivity. Qed.

Example jane_saves :
  let st := snd (Login RefJSON.parse RefJSON.stringify "JANE@X.COM" " abcd " janeRegistered) in
  let r := UpdateProfile RefJSON.parse RefJSON.stringify " Janet " " 12345" st in
  fst r = ShowSuccess "Account updated." /\
  getItem STORAGE_KEYS.users (snd r)
  = Some (RefJSON.jsonText "[{'name':'Janet','email':'jane@x.com','password':'12345'}]").
Proof. split; reflexivity. Qed.

Example jane_logs_out :
  let st := snd (Login RefJSON.parse RefJSON.stringify "JANE@X.COM" " abcd " janeRegistered) in
  readSession RefJSON.parse (App_handleLogout RefJSON.stringify st) = Normal JNull /\
  appSession (App_handleLogout RefJSON.stringify st) = JNull /\
  hash (App_handleLogout RefJSON.stringify st) = ROUTES.login.
Proof. repeat split; reflexivity. Qed.

Example readers_on_bad_records :
  readUsers RefJSON.parse (setItem STORAGE_KEYS.users "{oops" freshBrowser) = Normal [] /\
  readUsers RefJSON.parse (setItem STORAGE_KEYS.users "{}" freshBrowser) = Normal [] /\
  readUsers RefJSON.parse (setItem STORAGE_KEYS.users "null" freshBrowser) = Normal [] /\
  readUsers RefJSON.parse (setItem STORAGE_KEYS.users EmptyString freshBrowser) = Normal [] /\
  readSession RefJSON.parse (setItem STORAGE_KEYS.session "{oops" freshBrowser) = Normal JNull.
Proof. repeat split; reflexivity. Qed.

(** A [null] among the stored elements makes the handlers throw: reading
    [u.email] of it is a TypeError, and nothing is written. *)
Example register_on_null_element :
  RegisterPage_handleSubmit RefJSON.parse RefJSON.stringify
    "Jane Doe" "jane@x.com" "abcd" "abcd" (setItem STORAGE_KEYS.users "[null]" freshBrowser)
  = (Uncaught TypeError, setItem STORAGE_KEYS.users "[null]" freshBrowser).
Proof. reflexivity. Qed.

(** On a list that holds a number beyond the double range the registration
    succeeds, the write turns the number into [null], and the login that
    follows throws on reading [null.email]: it neither succeeds nor sets a
    session. *)
Lemma login_after_register_throws :
  readUsers RefJSON.parse overflowStore = Normal [JNum "Infinity"] /\
  RegisterPage_handleSubmit RefJSON.parse RefJSON.stringify
    "Jane Doe" "jane@x.com" "abcd" "abcd" overflowStore
  = (ShowSuccess "Registration successful. You can now log in.", nullThenJane) /\
  readUsers RefJSON.parse nullThenJane
  = Normal [JNull; newUser "Jane Doe" "jane@x.com" "abcd"] /\
  Login RefJSON.parse RefJSON.stringify "jane@x.com" "abcd" nullThenJane
  = (Uncaught TypeError, nullThenJane) /\
  readSession RefJSON.parse nullThenJane = Normal JNull.
Proof. repeat split; reflexivity. Qed.

Lemma register_then_login_witness :
  let r := Login RefJSON.parse RefJSON.stringify " JOHN@X.COM" " wxyz " janeAndJohn in
  fst r = LoggedIn (newUser "John Roe" "john@x.com" "wxyz") /\
  sessionIs RefJSON.parse RefJSON.stringify "john@x.com" (snd r).
Proof.
  apply (proj1 (register_then_login RefJSON.parse RefJSON.stringify
                  RefJSON_parse_stringify RefJSON_stringify_nonempty)
           "John Roe" "john@x.com" "wxyz" "wxyz"
           "Registration successful. You can now log in."
           janeRegistered janeAndJohn [newUser "Jane Doe" "jane@x.com" "abcd"]
           " " "JOHN@X.COM" EmptyString " " " ");
    try reflexivity.
  apply RefJSON_readsBack. reflexivity.
Defined.



(** A second registration with Jane's email and a one-letter name fails on
    the name rule, not with the duplicate-email message. And on a list that
    holds a number beyond the double range, the first registration writes
    that number as [null], and the second one throws on reading
    [null.email]: it shows no message at all. *)
Lemma second_register_other_outcomes :
  (RegisterPage_handleSubmit RefJSON.parse RefJSON.stringify
     "Jane Doe" "jane@x.com" "abcd" "abcd" freshBrowser
   = (ShowSuccess "Registration successful. You can now log in.", janeRegistered) /\
   toLowerCase (safeTrim " JANE@X.COM ") = toLowerCase (safeTrim "jane@x.com") /\
   RegisterPage_handleSubmit RefJSON.parse RefJSON.stringify
     "J" " JANE@X.COM " "abcd" "abcd" janeRegistered
   = (ShowError "Name must be at least 2 characters.", janeRegistered) /\
   fst (RegisterPage_handleSubmit RefJSON.parse RefJSON.stringify
          "J" " JANE@X.COM " "abcd" "abcd" janeRegistered)
   <> ShowError "An account with this email already exists.") /\
  (readUsers RefJSON.parse overflowStore = Normal [JNum "Infinity"] /\
   RegisterPage_handleSubmit RefJSON.parse RefJSON.stringify
     "Jane Doe" "jane@x.com" "abcd" "abcd" overflowStore
   = (ShowSuccess "Registration successful. You can now log in.", nullThenJane) /\
   RegisterPage_handleSubmit RefJSON.parse RefJSON.stringify
     "Janet" " JANE@X.COM " "12345" "12345" nullThenJane
   = (Uncaught TypeError, nullThenJane)).
Proof. repeat split; try reflexivity; discriminate. Qed.

Lemma register_same_email_twice_witness :
  let r := RegisterPage_handleSubmit RefJSON.parse RefJSON.stringify
             "Johnny" " JOHN@X.COM " "12345" "12345" janeAndJohn in
  snd r = janeAndJohn /\
  fst r = ShowError "An account with this email already exists." /\
  (exists users1, readUsers RefJSON.parse (snd r) = Normal users1 /\
     length users1 = 2 /\
     length (List.filter (hasEmail "john@x.com") users1) = 1) /\
  fst (RegisterPage_handleSubmit RefJSON.parse RefJSON.stringify
         "Johnny" " JOHN@X.COM " "12345" "1234" janeAndJohn)
  = ShowError "Passwords do not match.".
Proof.
  destruct (register_same_email_twice RefJSON.parse RefJSON.stringify
              "John Roe" "john@x.com" "wxyz" "wxyz"
              "Registration successful. You can now log in."
              "Johnny" " JOHN@X.COM " "12345" "12345" janeRegistered janeAndJohn
              [newUser "Jane Doe" "jane@x.com" "abcd"])
    as (H1 & _ & _ & _ & H5 & H6);
    [reflexivity | reflexivity | apply RefJSON_readsBack; reflexivity | reflexivity |].
  destruct (register_same_email_twice RefJSON.parse RefJSON.stringify
              "John Roe" "john@x.com" "wxyz" "wxyz"
              "Registration successful. You can now log in."
              "Johnny" " JOHN@X.COM " "12345" "1234" janeRegistered janeAndJohn
              [newUser "Jane Doe" "jane@x.com" "abcd"])
    as (_ & _ & _ & H4 & _);
    [reflexivity | reflexivity | apply RefJSON_readsBack; reflexivity | reflexivity |].
  split; [exact H1|]. split; [apply H5; [simpl; lia | simpl; lia | reflexivity]|].
  split; [exact H6|]. apply H4; [simpl; lia | simpl; lia | discriminate].
Defined.


(** A property of the record that holds a number beyond the double range is
    rewritten by the save: Jane's [age] is [Infinity] as read and [null] as
    written, though only the name and the password were edited. And with a
    [null] before Jane's record the save throws on reading [null.email]. *)
Lemma save_rewrites_other_property :
  (exists u u' : JSON,
     readUsers RefJSON.parse janeWithAge = Normal [u] /\
     hasEmail "jane@x.com" u = true /\
     Js.get u "age" = Normal (Some (JNum "Infinity")) /\
     fst (AccountPage_handleSave RefJSON.parse RefJSON.stringify
            janeSession "Janet" "12345" janeWithAge)
     = ShowSuccess "Account updated." /\
     readUsers RefJSON.parse
       (snd (AccountPage_handleSave RefJSON.parse RefJSON.stringify
               janeSession "Janet" "12345" janeWithAge))
     = Normal [u'] /\
     Js.get u' "age" = Normal (Some JNull) /\
     Js.get u' "age" <> Js.get u "age") /\
  (readUsers RefJSON.parse nullThenJane
   = Normal [JNull; newUser "Jane Doe" "jane@x.com" "abcd"] /\
   AccountPage_handleSave RefJSON.parse RefJSON.stringify
     janeSession "Janet" "12345" nullThenJane
   = (Uncaught TypeError, nullThenJane)).
Proof.
  split.
  - exists (JObj [("name", JStr "Jane Doe"); ("email", JStr "jane@x.com");
                  ("password", JStr "abcd"); ("age", JNum "Infinity")]),
           (JObj [("name", JStr "Janet"); ("email", JStr "jane@x.com");
                  ("password", JStr "12345"); ("age", JNull)]).
    repeat split; try reflexivity. discriminate.
  - split; reflexivity.
Qed.

Lemma save_overwrites_name_and_password_witness :
  let r := AccountPage_handleSave RefJSON.parse RefJSON.stringify
             johnSession " Johnny " " 12345" janeAndJohn in
  fst r = ShowSuccess "Account updated." /\
  readUsers RefJSON.parse (snd r)
  = Normal [newUser "Jane Doe" "jane@x.com" "abcd"; newUser "Johnny" "john@x.com" "12345"].
Proof.
  destruct (save_overwrites_name_and_password RefJSON.parse RefJSON.stringify
              johnSession " Johnny " " 12345" "john@x.com" janeAndJohn
              [newUser "Jane Doe" "jane@x.com" "abcd"; newUser "John Roe" "john@x.com" "wxyz"]
              1 (newUser "John Roe" "john@x.com" "wxyz"))
    as (u' & users' & H1 & _ & Hback & Hi & _ & _ & _ & _ & Hu' & Hlen & Hother & _);
    try reflexivity; try (simpl; lia).
  { intros [|j] uj Hj Hl; [|lia]. inversion Hl; subst. split; [reflexivity | discriminate]. }
  split; [exact H1|].
  assert (E : users' = [newUser "Jane Doe" "jane@x.com" "abcd";
                        newUser "Johnny" "john@x.com" "12345"]).
  { destruct users' as [|a [|b [|c l]]]; try discriminate Hlen.
    pose proof (Hother 0 ltac:(lia)) as H0. simpl in H0. inversion H0; subst a.
    simpl in Hi. inversion Hi; subst b.
    now rewrite (Hu' "John Roe" "wxyz" eq_refl). }
  subst users'. apply Hback, RefJSON_readsBack. reflexivity.
Defined.



Lemma validateEmail_at_and_dot_witness :
  validateEmail (JStr "jane@x.com") = true /\ validateEmail (JStr "jane.x") = false.
Proof.
  split.
  - apply (proj1 (validateEmail_at_and_dot "jane@x.com")). split.
    + exists "jane", "x.com". reflexivity.
    + exists "jane@x", "com". reflexivity.
  - apply (proj2 (validateEmail_at_and_dot "jane.x")). left.
    intros H. apply includes_single in H. discriminate H.
Defined.


Lemma readers_fall_back_witness :
  let st := setItem STORAGE_KEYS.users "{oops" freshBrowser in
  readUsers RefJSON.parse st = Normal [].
Proof.
  destruct (readers_fall_back RefJSON.parse
              (setItem STORAGE_KEYS.users "{oops" freshBrowser))
    as (_ & _ & _ & H & _).
  apply (H "{oops" SyntaxError); reflexivity.
Defined.

(** A save on a stored record whose email is upper-case writes that email
    back as it is: the record written is not normalized. *)
Lemma save_keeps_upper_case_email :
  readUsers RefJSON.parse janeUpperCase = Normal [newUser "Jane Doe" "JANE@X.COM" "abcd"] /\
  readSession RefJSON.parse janeUpperCase = Normal (appSession janeUpperCase) /\
  fst (UpdateProfile RefJSON.parse RefJSON.stringify "Janet" "12345" janeUpperCase)
  = ShowSuccess "Account updated." /\
  getItem STORAGE_KEYS.users
    (snd (UpdateProfile RefJSON.parse RefJSON.stringify "Janet" "12345" janeUpperCase))
  = Some (RefJSON.jsonText "[{'name':'Janet','email':'JANE@X.COM','password':'12345'}]") /\
  readUsers RefJSON.parse
    (snd (UpdateProfile RefJSON.parse RefJSON.stringify "Janet" "12345" janeUpperCase))
  = Normal [newUser "Janet" "JANE@X.COM" "12345"] /\
  normalized (newUser "Janet" "JANE@X.COM" "12345") = false /\
  toLowerCase (trim "JANE@X.COM") <> "JANE@X.COM".
Proof. repeat split; try reflexivity. discriminate. Qed.

Lemma stored_records_normalized_witness :
  let st := snd (AccountPage_handleSave RefJSON.parse RefJSON.stringify
                   johnSession " Johnny " " 12345" janeAndJohn) in
  exists users,
    readUsers RefJSON.parse st = Normal users /\
    forallb normalized users = true.
Proof.
  apply (proj2 (proj2 (stored_records_normalized RefJSON.parse RefJSON.stringify
                         RefJSON_parse_stringify RefJSON_stringify_nonempty))).
  apply (populated_save RefJSON.parse RefJSON.stringify janeAndJohn
           johnSession " Johnny " " 12345").
  apply (populated_register RefJSON.parse RefJSON.stringify janeRegistered
           "John Roe" "john@x.com" "wxyz" "wxyz").
  apply (populated_register RefJSON.parse RefJSON.stringify freshBrowser
           "Jane Doe" "jane@x.com" "abcd" "abcd").
  apply populated_fresh. reflexivity.
Defined.

(** ** The rest of the pages on concrete stores *)

Definition janeLoggedIn : state :=
  snd (Login RefJSON.parse RefJSON.stringify "JANE@X.COM" " abcd " janeRegistered).

Definition jane : JSON := newUser "Jane Doe" "jane@x.com" "abcd".

Lemma janeRegistered_populated : populated RefJSON.parse RefJSON.stringify janeRegistered.
Proof.
  apply (populated_register RefJSON.parse RefJSON.stringify freshBrowser
           "Jane Doe" "jane@x.com" "abcd" "abcd").
  apply populated_fresh. reflexivity.
Qed.

Lemma janeLoggedIn_populated : populated RefJSON.parse RefJSON.stringify janeLoggedIn.
Proof. apply populated_login, janeRegistered_populated. Qed.

Lemma logout_clears_session_witness :
  getItem STORAGE_KEYS.session (App_handleLogout RefJSON.stringify janeLoggedIn) = None /\
  getItem STORAGE_KEYS.users (App_handleLogout RefJSON.stringify janeLoggedIn)
  = getItem STORAGE_KEYS.users janeLoggedIn.
Proof.
  destruct (logout_clears_session RefJSON.parse RefJSON.stringify janeLoggedIn)
    as (H1 & _ & _ & _ & _ & _ & H7).
  split; [exact H1|]. apply H7. discriminate.
Defined.

Lemma handlers_touch_only_their_record_witness :
  getItem STORAGE_KEYS.users janeLoggedIn = getItem STORAGE_KEYS.users janeRegistered.
Proof.
  apply (proj1 (handlers_touch_only_their_record RefJSON.parse RefJSON.stringify)).
  discriminate.
Defined.

Lemma redirect_off_auth_pages_witness :
  App_page (App_redirect (navigate ROUTES.login janeLoggedIn)) <> LoginPageView /\
  App_page (App_redirect (navigate ROUTES.login janeLoggedIn)) <> RegisterPageView.
Proof.
  apply (proj1 (redirect_off_auth_pages (navigate ROUTES.login janeLoggedIn))).
  reflexivity.
Defined.

Lemma mount_defaults_to_login_witness :
  hash (useHashRoute_onMount (navigate EmptyString freshBrowser)) = ROUTES.login /\
  App_page (useHashRoute_onMount (navigate EmptyString freshBrowser)) = LoginPageView.
Proof.
  destruct (mount_defaults_to_login (navigate EmptyString freshBrowser))
    as (_ & _ & _ & H & _).
  apply H. reflexivity.
Defined.

Lemma safeTrim_normal_form_witness : safeTrim "  Jane Doe " = safeTrim "Jane Doe".
Proof.
  destruct (safeTrim_normal_form "Jane Doe") as (_ & _ & _ & _ & H & _).
  apply (H "  " " "); reflexivity.
Defined.

Lemma submit_without_name_witness :
  AccountPage_submit RefJSON.parse RefJSON.stringify janeSession
    (JObj [("email", JStr "jane@x.com"); ("password", JStr "abcd")]) janeLoggedIn
  = (ShowError "Name must be at least 2 characters.", janeLoggedIn).
Proof.
  apply (submit_without_name RefJSON.parse RefJSON.stringify janeSession
           (JObj [("email", JStr "jane@x.com"); ("password", JStr "abcd")])
           None (Some (JStr "abcd")) "abcd" janeLoggedIn);
    solve [reflexivity | exact I].
Defined.

Lemma account_page_guard_witness :
  AccountPage_render RefJSON.parse JNull janeRegistered = Normal MustLogIn /\
  AccountPage_render RefJSON.parse janeSession janeRegistered = Normal (ProfileForm jane) /\
  AccountPage_render RefJSON.parse (JObj [("email", JStr "john@x.com")]) janeRegistered
  = Normal MustLogIn.
Proof.
  split; [|split].
  - apply (proj1 (account_page_guard RefJSON.parse JNull janeRegistered)). reflexivity.
  - apply (proj2 (account_page_guard RefJSON.parse janeSession janeRegistered)
             "jane@x.com" [jane]); reflexivity.
  - apply (proj2 (account_page_guard RefJSON.parse (JObj [("email", JStr "john@x.com")])
                    janeRegistered) "john@x.com" [jane]); reflexivity.
Defined.

Lemma populated_unique_emails_witness :
  exists users, readUsers RefJSON.parse janeLoggedIn = Normal users /\ uniqueEmails users.
Proof.
  apply (populated_unique_emails RefJSON.parse RefJSON.stringify
           RefJSON_parse_stringify RefJSON_stringify_nonempty).
  apply janeLoggedIn_populated.
Defined.

Lemma roundTrip_on_populated_witness :
  roundTrip RefJSON.parse RefJSON.stringify janeRegistered = Normal janeRegistered.
Proof.
  apply (roundTrip_on_populated RefJSON.parse RefJSON.stringify
           RefJSON_parse_stringify RefJSON_stringify_nonempty).
  - apply janeRegistered_populated.
  - discriminate.
Defined.

Lemma registration_keeps_logins_witness :
  fst (Login RefJSON.parse RefJSON.stringify "JANE@X.COM" " abcd "
         (snd (RegisterPage_handleSubmit RefJSON.parse RefJSON.stringify
                 "John Roe" "john@x.com" "12345" "12345" janeRegistered)))
  = LoggedIn jane.
Proof.
  apply (registration_keeps_logins RefJSON.parse RefJSON.stringify
           RefJSON_parse_stringify RefJSON_stringify_nonempty
           "JANE@X.COM" " abcd " "John Roe" "john@x.com" "12345" "12345"
           janeRegistered janeLoggedIn [jane] jane); reflexivity.
Defined.

Lemma login_shows_own_profile_witness :
  App_page janeLoggedIn = AccountPageView (appSession janeLoggedIn) /\
  App_redirect janeLoggedIn = janeLoggedIn /\
  sessionIs RefJSON.parse RefJSON.stringify "jane@x.com" janeLoggedIn /\
  AccountPage_render RefJSON.parse (appSession janeLoggedIn) janeLoggedIn
  = Normal (ProfileForm jane).
Proof.
  apply (login_shows_own_profile RefJSON.parse RefJSON.stringify
           RefJSON_parse_stringify RefJSON_stringify_nonempty
           "JANE@X.COM" " abcd " janeRegistered janeLoggedIn jane).
  - apply janeRegistered_populated.
  - reflexivity.
Defined.

Lemma save_unedited_profile_witness :
  AccountPage_submit RefJSON.parse RefJSON.stringify janeSession jane janeLoggedIn
  = (ShowSuccess "Account updated.", janeLoggedIn).
Proof.
  apply (save_unedited_profile RefJSON.parse RefJSON.stringify
           RefJSON_parse_stringify RefJSON_stringify_nonempty
           janeSession "jane@x.com" janeLoggedIn jane).
  - apply janeLoggedIn_populated.
  - reflexivity.
  - reflexivity.
Defined.

Lemma change_password_then_login_witness :
  let st2 := snd (UpdateProfile RefJSON.parse RefJSON.stringify "Jane Doe" "12345"
                    janeLoggedIn) in
  fst (Login RefJSON.parse RefJSON.stringify "JANE@X.COM" "12345" st2)
  = LoggedIn (newUser "Jane Doe" "jane@x.com" "12345") /\
  (safeTrim " abcd " <> safeTrim "12345" ->
   Login RefJSON.parse RefJSON.stringify "JANE@X.COM" " abcd " st2
   = (ShowError "Invalid email or password.", st2)).
Proof.
  apply (change_password_then_login RefJSON.parse RefJSON.stringify
           RefJSON_parse_stringify RefJSON_stringify_nonempty
           "JANE@X.COM" " abcd " "Jane Doe" "12345" "Account updated."
           janeRegistered janeLoggedIn
           (snd (UpdateProfile RefJSON.parse RefJSON.stringify "Jane Doe" "12345"
                   janeLoggedIn))
           jane).
  - apply janeRegistered_populated.
  - reflexivity.
  - reflexivity.
Defined.

Lemma session_write_then_read_witness :
  readSession RefJSON.parse (writeSession RefJSON.stringify janeSession freshBrowser)
  = Normal janeSession /\
  readSession RefJSON.parse (writeSession RefJSON.stringify JNull janeLoggedIn)
  = Normal JNull.
Proof.
  split.
  - apply (proj1 (proj2 (session_write_then_read RefJSON.parse RefJSON.stringify
                           RefJSON_parse_stringify RefJSON_stringify_nonempty
                           janeSession freshBrowser))); reflexivity.
  - apply (proj1 (session_write_then_read RefJSON.parse RefJSON.stringify
                    RefJSON_parse_stringify RefJSON_stringify_nonempty
                    JNull janeLoggedIn)). reflexivity.
Defined.

Lemma records_stay_witness :
  exists users',
    readUsers RefJSON.parse
      (snd (RegisterPage_handleSubmit RefJSON.parse RefJSON.stringify
              "John Roe" "john@x.com" "12345" "12345" janeRegistered))
    = Normal users' /\
    forall i u, [jane] !! i = Some u ->
      exists u', users' !! i = Some u' /\ forall e, hasEmail e u' = hasEmail e u.
Proof.
  apply (records_stay RefJSON.parse RefJSON.stringify
           RefJSON_parse_stringify RefJSON_stringify_nonempty janeRegistered [jane]).
  - apply janeRegistered_populated.
  - reflexivity.
  - left. exists "John Roe", "john@x.com", "12345", "12345". reflexivity.
Defined.

Example valueToString_join :
  valueToString (JArr [JNum "1"; JNull; JArr [JStr "a"; JBool true]; JObj []])
  = Normal "1,,a,true,[object Object]" /\
  valueToString (JObj [("toString", JNum "1")]) = Throw TypeError /\
  safeTrimValue (Some (JNum "12")) = Normal "12" /\
  safeTrimValue (Some (JNum "0")) = Normal EmptyString.
Proof. repeat split; reflexivity. Qed.

Example pages_by_route :
  App_page (navigate "#/register" freshBrowser) = RegisterPageView /\
  App_page (navigate "#/account" freshBrowser) = AccountPageView JNull /\
  App_page (navigate "#/nowhere" freshBrowser) = NotFoundView /\
  App_page (navigate EmptyString freshBrowser) = LoginPageView.
Proof. repeat split; reflexivity. Qed.

Example jane_edits_and_saves :
  let profile := AccountPage_handleField "name" " Janet " jane in
  let r := AccountPage_submit RefJSON.parse RefJSON.stringify janeSession profile janeLoggedIn in
  fst r = ShowSuccess "Account updated." /\
  readUsers RefJSON.parse (snd r) = Normal [newUser "Janet" "jane@x.com" "abcd"].
Proof. split; reflexivity. Qed.
